(** * Spec Annotator AI: annotation geometry and interaction engine

    A shallow embedding of the annotation logic of the application:
    - [types.ts]: [Point], [Annotation], [AnnotationType], [DisplayFilter];
    - [App.tsx]: the annotation store handlers ([addAnnotation],
      [deleteAnnotation], [updateAnnotation]) and the derived views
      ([sortedAnnotations], [filteredAnnotations], [displayNumbers]);
    - [services/geminiService.ts]: the post-processing of the detected boxes
      in [detectAndDescribeUI];
    - [components/AnnotationCanvas.tsx]: hit testing and the mouse handlers.

    Modelling conventions.
    - A JavaScript [number] holding a coordinate is a rational [Q]: the
      comparisons, [Math.max], [Math.min] and the subtraction of the sort
      comparator are exact on it.  [Math.sqrt (dx^2 + dy^2) <= r] is written
      [dx^2 + dy^2 <= r^2], its exact meaning; the rounding of binary
      floating point is outside the model.
    - Ids are integers ([Date.now()] plus an array index): [Z].
    - [Date.now()] is an input: every handler that reads the clock takes the
      value read as an argument.
    - React state is passed explicitly; a handler sees the state left by the
      previous event (the component re-renders between two DOM events).
    - A string is the sequence of its UTF-8 bytes.  [toLowerCase] lowers the
      ASCII letters and the Kelvin sign (U+212A, whose lower case is [k]);
      it leaves every other code point as it is: the lower case of such a
      code point is never a single ASCII letter (that of U+0130 is [i]
      followed by U+0307), so the comparison with the ASCII words of
      [ACTIONABLE_TYPES] does not depend on it. *)

From Stdlib Require Import QArith Qround Qminmax Lqa Sorted Permutation Ascii.
From stdpp Require Import gmap strings list pretty.

Local Open Scope Q_scope.

(** ** Data model ([types.ts]) *)

Record Point := mkPoint { x : Q; y : Q }.

Inductive AnnotationType := general | actionable.

(** ['all' | 'general' | 'actionable']: a filter is either [all] or the
    annotation type it keeps. *)
Inductive DisplayFilter := all | only (t : AnnotationType).

Record Annotation := mkAnnotation {
  id : Z;
  point : Point;
  description : string;
  elementType : string;
  annotationType : AnnotationType
}.

Global Instance AnnotationType_eq_dec : EqDecision AnnotationType.
Proof. solve_decision. Defined.

(** [a.annotationType === displayFilter] *)
Definition typeIsFilter (t : AnnotationType) (f : DisplayFilter) : bool :=
  match f with
  | all => false
  | only t' => bool_decide (t = t')
  end.

(** ** Derived views ([App.tsx], lines 151-181) *)

(** The comparator handed to [sort]. *)
Definition compareAnnotations (a b : Annotation) : Q :=
  if negb (Qeq_bool (y (point a)) (y (point b)))
  then y (point a) - y (point b)
  else x (point a) - x (point b).

(** [Array.prototype.sort] is stable: with a comparator it puts [a] before [b]
    when [cmp a b < 0] and keeps the order of the array when [cmp a b = 0].
    The head of the array precedes the rest of it, so it is inserted before
    the first element it does not compare greater than. *)
Fixpoint sort_insert {A} (cmp : A -> A -> Q) (a : A) (l : list A) : list A :=
  match l with
  | [] => [a]
  | b :: l' => if Qle_bool (cmp a b) 0 then a :: l else b :: sort_insert cmp a l'
  end.

Fixpoint array_sort {A} (cmp : A -> A -> Q) (l : list A) : list A :=
  match l with
  | [] => []
  | a :: l' => sort_insert cmp a (array_sort cmp l')
  end.

Definition sortedAnnotations (annotations : list Annotation) : list Annotation :=
  array_sort compareAnnotations annotations.

Definition filteredAnnotations (displayFilter : DisplayFilter)
    (sorted : list Annotation) : list Annotation :=
  match displayFilter with
  | all => sorted
  | _ => List.filter (fun a => typeIsFilter (annotationType a) displayFilter) sorted
  end.

(** The state of the [forEach] loop of [displayNumbers]: the object being
    filled and the two counters. *)
Record NumberWalk := mkWalk {
  numberMap : gmap Z string;
  generalCount : nat;
  actionableCount : nat
}.

Definition numberStep (st : NumberWalk) (anno : Annotation) : NumberWalk :=
  match annotationType anno with
  | general =>
      {| numberMap := <[id anno := pretty (generalCount st)]> (numberMap st);
         generalCount := S (generalCount st);
         actionableCount := actionableCount st |}
  | actionable =>
      {| numberMap := <[id anno := "A" +:+ pretty (actionableCount st)]> (numberMap st);
         generalCount := generalCount st;
         actionableCount := S (actionableCount st) |}
  end.

Definition numberWalk (sorted : list Annotation) : NumberWalk :=
  fold_left numberStep sorted {| numberMap := ∅; generalCount := 1; actionableCount := 1 |}.

Definition displayNumbers (sorted : list Annotation) : gmap Z string :=
  numberMap (numberWalk sorted).

(** What [App] hands to the canvas and to the sidebar. *)
Definition visibleAnnotations (annotations : list Annotation)
    (displayFilter : DisplayFilter) : list Annotation :=
  filteredAnnotations displayFilter (sortedAnnotations annotations).

(** [displayNumbers[id] || '?'], the text drawn inside a marker. *)
Definition idText (numbers : gmap Z string) (anno : Annotation) : string :=
  match numbers !! id anno with
  | Some s => if bool_decide (s = "") then "?" else s
  | None => "?"
  end.

(** The markers of a view with the text drawn in each. *)
Definition renderedLabels (annotations : list Annotation)
    (displayFilter : DisplayFilter) : list (Annotation * string) :=
  map (fun a => (a, idText (displayNumbers (sortedAnnotations annotations)) a))
      (visibleAnnotations annotations displayFilter).

Definition ex1 : list Annotation :=
  [ mkAnnotation 1 (mkPoint 100 50) "" "manual" general;
    mkAnnotation 2 (mkPoint 10 50) "" "manual" actionable;
    mkAnnotation 3 (mkPoint 500 10) "" "manual" general ].

(** ** The order of the display and the labels *)

(** [before a b]: [a] may stand before [b] in the display, by [point.y]
    ascending and, for equal [y], by [point.x] ascending. *)
Definition before (a b : Annotation) : Prop :=
  y (point a) < y (point b) \/
  (y (point a) == y (point b) /\ x (point a) <= x (point b)).

(** The number of annotations of type [t] in [l]. *)
Definition countType (t : AnnotationType) (l : list Annotation) : nat :=
  length (List.filter (fun a => bool_decide (annotationType a = t)) l).

(** The label of the [k]-th annotation of its type. *)
Definition labelOf (t : AnnotationType) (k : nat) : string :=
  match t with
  | general => pretty k
  | actionable => "A" +:+ pretty k
  end.

(** [passes f a]: the filter [f] shows [a]. *)
Definition passes (f : DisplayFilter) (a : Annotation) : bool :=
  match f with
  | all => true
  | only t => bool_decide (annotationType a = t)
  end.

(** Every label in the object is the label of a counter value already
    passed, and no two keys hold the same label. *)
Definition walkInv (st : NumberWalk) : Prop :=
  (forall i l, numberMap st !! i = Some l ->
     exists t k, l = labelOf t k /\
       (k < match t with general => generalCount st | actionable => actionableCount st end)%nat) /\
  (forall i j l, numberMap st !! i = Some l -> numberMap st !! j = Some l -> i = j).


(** ** Detection post-processing ([services/geminiService.ts], lines 118-167) *)

(** [DetectedObject]: an element of the array parsed from the response.  The
    corners are tested with [!topLeft || !bottomRight] before use, so each may
    be absent. *)
Module DetectedObject.
Record t := mk {
  topLeft : option Point;
  bottomRight : option Point;
  description : string;
  elementType : string
}.
End DetectedObject.

(** The two properties of the [HTMLImageElement] that are read. *)
Record Image := mkImage { naturalWidth : N; naturalHeight : N }.

Definition numberOfN (n : N) : Q := inject_Z (Z.of_N n).

Definition ACTIONABLE_TYPES : list string := ["button"; "link"; "tab"].

Definition toLowerChar (c : ascii) : ascii :=
  let n := nat_of_ascii c in
  if (65 <=? n)%nat && (n <=? 90)%nat then ascii_of_nat (n + 32) else c.

(** [String.prototype.toLowerCase]; the three bytes 226, 132, 170 are the
    Kelvin sign. *)
Fixpoint toLowerCase (s : string) : string :=
  match s with
  | EmptyString => EmptyString
  | String c s1 =>
      match s1 with
      | String c2 (String c3 s3) =>
          if Ascii.eqb c "226" && Ascii.eqb c2 "132" && Ascii.eqb c3 "170"
          then String "k" (toLowerCase s3)
          else String (toLowerChar c) (toLowerCase s1)
      | _ => String (toLowerChar c) (toLowerCase s1)
      end
  end.

(** [array.includes(s)] on an array of strings *)
Definition includes (l : list string) (s : string) : bool :=
  existsb (String.eqb s) l.

(** The test of the "stricter filtering" [if], once both corners exist. *)
Definition invalidOrOffscreen (image : Image) (topLeft bottomRight : Point) : bool :=
  Qle_bool (x bottomRight) (x topLeft) ||
  Qle_bool (y bottomRight) (y topLeft) ||
  Qle_bool (x bottomRight) 0 ||
  Qle_bool (numberOfN (naturalWidth image)) (x topLeft) ||
  Qle_bool (y bottomRight) 0 ||
  Qle_bool (numberOfN (naturalHeight image)) (y topLeft).

(** The callback of [detectedObjects.map]; [now] is the value of [Date.now()]
    read by this call, [None] is the [null] it returns for a discarded box. *)
Definition detectCallback (image : Image) (now : Z)
    (obj : DetectedObject.t) (index : nat) : option Annotation :=
  match DetectedObject.topLeft obj, DetectedObject.bottomRight obj with
  | Some topLeft, Some bottomRight =>
      if invalidOrOffscreen image topLeft bottomRight then None
      else
        let x1 := Qmax 0 (x topLeft) in
        let y1 := Qmax 0 (y topLeft) in
        let x2 := Qmin (numberOfN (naturalWidth image)) (x bottomRight) in
        let y2 := Qmin (numberOfN (naturalHeight image)) (y bottomRight) in
        let centerX := x2 in
        let centerY := y1 in
        let centerX := Qmax 0 (Qmin centerX (numberOfN (naturalWidth image))) in
        let centerY := Qmax 0 (Qmin centerY (numberOfN (naturalHeight image))) in
        let elementType :=
          if bool_decide (DetectedObject.elementType obj = "") then "other"
          else DetectedObject.elementType obj in
        let annotationType :=
          if includes ACTIONABLE_TYPES (toLowerCase elementType)
          then actionable else general in
        Some {| id := now + Z.of_nat index;
                point := {| x := centerX; y := centerY |};
                description := DetectedObject.description obj;
                elementType := elementType;
                annotationType := annotationType |}
  | _, _ => None
  end.

(** [detectedObjects.map(...).filter(anno => anno !== null)]; [now index] is
    the clock read by the call for the element at [index]. *)
Definition detectAnnotations (image : Image) (now : nat -> Z)
    (detectedObjects : list DetectedObject.t) : list Annotation :=
  omap (fun anno => anno)
    (imap (fun index obj => detectCallback image (now index) obj index) detectedObjects).

(** [discarded image obj]: the callback takes the [return null] branch. *)
Definition discarded (image : Image) (obj : DetectedObject.t) : bool :=
  match DetectedObject.topLeft obj, DetectedObject.bottomRight obj with
  | Some topLeft, Some bottomRight => invalidOrOffscreen image topLeft bottomRight
  | _, _ => true
  end.

(** The conditions of rejection, as the specification lists them. *)
Definition rejectable (image : Image) (obj : DetectedObject.t) : Prop :=
  DetectedObject.topLeft obj = None \/
  DetectedObject.bottomRight obj = None \/
  exists tl br,
    DetectedObject.topLeft obj = Some tl /\
    DetectedObject.bottomRight obj = Some br /\
    (x tl >= x br \/ y tl >= y br \/
     x br <= 0 \/ x tl >= numberOfN (naturalWidth image) \/
     y br <= 0 \/ y tl >= numberOfN (naturalHeight image)).

Definition box (x1 y1 x2 y2 : Q) (description elementType : string) : DetectedObject.t :=
  DetectedObject.mk (Some (mkPoint x1 y1)) (Some (mkPoint x2 y2)) description elementType.

(** ** The annotation store and the selection ([App.tsx], lines 23-148) *)

(** [Partial<Annotation>]: each field present or not. *)
Module Partial.
Record t := mk {
  id : option Z;
  point : option Point;
  description : option string;
  elementType : option string;
  annotationType : option AnnotationType
}.
End Partial.

(** [{ ...anno, ...updates }] *)
Definition spread (anno : Annotation) (updates : Partial.t) : Annotation :=
  {| id := default (id anno) (Partial.id updates);
     point := default (point anno) (Partial.point updates);
     description := default (description anno) (Partial.description updates);
     elementType := default (elementType anno) (Partial.elementType updates);
     annotationType := default (annotationType anno) (Partial.annotationType updates) |}.

(** The state the handlers read and write: the [useState] cells of [App]
    that concern annotations, then the state and the ref of
    [AnnotationCanvas]. *)
Record App := mkApp {
  annotations : list Annotation;
  displayFilter : DisplayFilter;
  manualAnnotationType : AnnotationType;
  selectedAnnotationId : option Z;
  annotationToDelete : option Z;
  draggingAnnotationId : option Z;
  dragStartPos : option Point
}.

Definition setAnnotations (l : list Annotation) (st : App) : App :=
  mkApp l (displayFilter st) (manualAnnotationType st) (selectedAnnotationId st)
    (annotationToDelete st) (draggingAnnotationId st) (dragStartPos st).

Definition setSelectedAnnotationId (sel : option Z) (st : App) : App :=
  mkApp (annotations st) (displayFilter st) (manualAnnotationType st) sel
    (annotationToDelete st) (draggingAnnotationId st) (dragStartPos st).

Definition setAnnotationToDelete (del : option Z) (st : App) : App :=
  mkApp (annotations st) (displayFilter st) (manualAnnotationType st)
    (selectedAnnotationId st) del (draggingAnnotationId st) (dragStartPos st).

Definition setDraggingAnnotationId (drag : option Z) (st : App) : App :=
  mkApp (annotations st) (displayFilter st) (manualAnnotationType st)
    (selectedAnnotationId st) (annotationToDelete st) drag (dragStartPos st).

Definition setDragStartPos (start : option Point) (st : App) : App :=
  mkApp (annotations st) (displayFilter st) (manualAnnotationType st)
    (selectedAnnotationId st) (annotationToDelete st) (draggingAnnotationId st) start.

(** The state of a fresh [App]. *)
Definition initialApp : App := mkApp [] all general None None None None.

(** The [img.onload] of [handleImageUpload] when the detection succeeds. *)
Definition handleImageUpload (image : Image) (now : nat -> Z)
    (detectedObjects : list DetectedObject.t) (st : App) : App :=
  let st := setAnnotations [] st in
  let st := setSelectedAnnotationId None st in
  setAnnotations (detectAnnotations image now detectedObjects) st.

(** [now] is the value of [Date.now()]. *)
Definition addAnnotation (now : Z) (pt : Point) (st : App) : App :=
  let newAnnotation :=
    {| id := now; point := pt; description := ""; elementType := "manual";
       annotationType := manualAnnotationType st |} in
  let st := setAnnotations (annotations st ++ [newAnnotation]) st in
  setSelectedAnnotationId (Some (id newAnnotation)) st.

Definition deleteAnnotation (i : Z) (st : App) : App :=
  let st' := setAnnotations
    (List.filter (fun anno => negb (bool_decide (id anno = i))) (annotations st)) st in
  if bool_decide (selectedAnnotationId st = Some i)
  then setSelectedAnnotationId None st' else st'.

Definition updateAnnotation (i : Z) (updates : Partial.t) (st : App) : App :=
  setAnnotations
    (map (fun anno => if bool_decide (id anno = i) then spread anno updates else anno)
       (annotations st)) st.

Definition handleRequestDelete (i : Z) (st : App) : App :=
  setAnnotationToDelete (Some i) st.

Definition handleConfirmDelete (st : App) : App :=
  match annotationToDelete st with
  | Some i => setAnnotationToDelete None (deleteAnnotation i st)
  | None => st
  end.

Definition handleCancelDelete (st : App) : App := setAnnotationToDelete None st.

(** ** The canvas ([components/AnnotationCanvas.tsx]) *)

(** [Math.round]: the nearest integer, halves upwards. *)
Definition Math_round (q : Q) : Q := inject_Z (Qfloor (q + (1 # 2))).

(** The square of the distance between two points, the argument of
    [Math.sqrt] in the two distance computations. *)
Definition squaredDistance (p q : Point) : Q :=
  (x p - x q) * (x p - x q) + (y p - y q) * (y p - y q).

(** [distance <= radius] with [radius = 14]. *)
Definition inPickRadius (pos : Point) (anno : Annotation) : bool :=
  Qle_bool (squaredDistance pos (point anno)) (14 * 14).

(** The loop runs from the last index down to the first and returns the
    first annotation within the radius. *)
Definition getAnnotationAtPos (annotations : list Annotation) (pos : Point)
    : option Annotation :=
  List.find (inPickRadius pos) (rev annotations).

(** The [annotations] prop of the canvas is [filteredAnnotations]. *)
Definition canvasAnnotations (st : App) : list Annotation :=
  visibleAnnotations (annotations st) (displayFilter st).

(** In the handlers [pos] is the result of [getCanvasCoordinates(e)] and
    [button] is [e.button]; the cursor style is not modelled. *)
Definition handleMouseDown (button : Z) (pos : Point) (st : App) : App :=
  if negb (button =? 0)%Z then st
  else
    let st := setDragStartPos (Some pos) st in
    match getAnnotationAtPos (canvasAnnotations st) pos with
    | Some clickedAnnotation => setDraggingAnnotationId (Some (id clickedAnnotation)) st
    | None => st
    end.

Definition handleMouseMove (pos : Point) (st : App) : App :=
  match draggingAnnotationId st with
  | Some dragged =>
      updateAnnotation dragged
        (Partial.mk None (Some {| x := Math_round (x pos); y := Math_round (y pos) |})
           None None None) st
  | None => st
  end.

Definition handleMouseUp (button : Z) (pos : Point) (now : Z) (st : App) : App :=
  if negb (button =? 0)%Z then st
  else
    let wasDragging := bool_decide (draggingAnnotationId st <> None) in
    let st1 := setDraggingAnnotationId None st in
    let st2 :=
      match dragStartPos st1 with
      | Some start =>
          (* dist < 5 && !wasDragging *)
          if negb (Qle_bool (5 * 5) (squaredDistance pos start)) && negb wasDragging
          then
            match getAnnotationAtPos (canvasAnnotations st) pos with
            | Some clickedAnnotation =>
                setSelectedAnnotationId
                  (if bool_decide (selectedAnnotationId st = Some (id clickedAnnotation))
                   then None else Some (id clickedAnnotation)) st1
            | None =>
                addAnnotation now
                  {| x := Math_round (x pos); y := Math_round (y pos) |} st1
            end
          else st1
      | None => st1
      end in
    setDragStartPos None st2.

Definition handleMouseLeave (st : App) : App :=
  setDragStartPos None (setDraggingAnnotationId None st).

Definition handleContextMenu (pos : Point) (st : App) : App :=
  match getAnnotationAtPos (canvasAnnotations st) pos with
  | Some annotationToDelete => handleRequestDelete (id annotationToDelete) st
  | None => st
  end.

(** The pointer events of the canvas; a release carries the clock value that
    [addAnnotation] would read. *)
Inductive PointerEvent :=
  | MouseDown (button : Z) (pos : Point)
  | MouseMove (pos : Point)
  | MouseUp (button : Z) (pos : Point) (now : Z)
  | MouseLeave
  | ContextMenu (pos : Point).

Definition handle (st : App) (ev : PointerEvent) : App :=
  match ev with
  | MouseDown button pos => handleMouseDown button pos st
  | MouseMove pos => handleMouseMove pos st
  | MouseUp button pos now => handleMouseUp button pos now st
  | MouseLeave => handleMouseLeave st
  | ContextMenu pos => handleContextMenu pos st
  end.

Definition handleAll (evs : list PointerEvent) (st : App) : App :=
  fold_left handle evs st.

(** ** Notions used by the proofs *)

(** The clock value an event carries, if any. *)
Definition clockOf (ev : PointerEvent) : option Z :=
  match ev with
  | MouseUp _ _ now => Some now
  | _ => None
  end.

(** [keepsId i l0 st]: the annotations of the store with id [i] are those of
    [l0] with id [i], and [i] is not the id being dragged. *)
Definition keepsId (i : Z) (l0 : list Annotation) (st : App) : Prop :=
  (forall b, id b = i -> (b ∈ annotations st <-> b ∈ l0)) /\
  draggingAnnotationId st <> Some i.

(** The annotations of a batch whose callbacks run from [start] on: the
    element at position [i] is handled at index [start + i]. *)
Definition detectFrom (image : Image) (now : nat -> Z) (start : nat)
    (objs : list DetectedObject.t) : list Annotation :=
  omap (fun anno => anno)
    (imap (fun i obj => detectCallback image (now (start + i)%nat) obj (start + i)%nat) objs).

(** ** Example states and sessions *)

(** The state of the examples: one general marker at (100,100), nothing
    selected, the controller idle. *)
Definition marker7 : Annotation := mkAnnotation 7 (mkPoint 100 100) "" "manual" general.
Definition oneMarker : App := setAnnotations [marker7] initialApp.

(** A hidden actionable marker behind a general-only filter. *)
Definition hidden8 : Annotation := mkAnnotation 8 (mkPoint 200 200) "" "button" actionable.
Definition oneHidden : App :=
  mkApp [marker7; hidden8] (only general) general None None None None.

(** A batch of three detected boxes and the sessions that reuse an id. *)
Definition batch3 : list DetectedObject.t :=
  [ box 10 10 60 30 "Sign in" "button";
    box 10 50 60 70 "User name" "input";
    box 10 90 60 110 "Help" "link" ].

Definition uploaded3 : App :=
  handleImageUpload (mkImage 800 600) (fun _ => 1000%Z) batch3 initialApp.

Definition clickAt (pos : Point) (now : Z) : list PointerEvent :=
  [MouseDown 0 pos; MouseUp 0 pos now].

Definition collidingSession : App :=
  handleAll (clickAt (mkPoint 400 300) 1002) uploaded3.

Definition sameMillisecondSession : App :=
  handleAll (clickAt (mkPoint 400 300) 2000 ++ clickAt (mkPoint 500 300) 2000) initialApp.

Definition reuseAfterDeleteSession : App :=
  handleAll (clickAt (mkPoint 400 300) 1002)
    (handleConfirmDelete (handleAll [ContextMenu (mkPoint 60 90)] uploaded3)).

(** ** The sidebar ([components/AnnotationSidebar.tsx]) *)

(** [annotations.find(a => a.id === selectedAnnotationId)]; the [annotations]
    prop of the sidebar is the filtered list too.  No id equals [null]. *)
Definition selectedAnnotation (st : App) : option Annotation :=
  List.find (fun a => bool_decide (Some (id a) = selectedAnnotationId st))
    (canvasAnnotations st).

(** The [onClick] of the list item of [anno]. *)
Definition sidebarItemClick (anno : Annotation) (st : App) : App :=
  let isSelected := bool_decide (Some (id anno) = selectedAnnotationId st) in
  setSelectedAnnotationId (if isSelected then None else Some (id anno)) st.

(** The [onChange] of the description box, which is rendered only when
    [selectedAnnotation] is found. *)
Definition editDescription (text : string) (st : App) : App :=
  match selectedAnnotation st with
  | Some selected =>
      updateAnnotation (id selected) (Partial.mk None None (Some text) None None) st
  | None => st
  end.

(** ** The size of the canvas ([resizeCanvas], [getCanvasCoordinates]) *)

(** The displayed width and height for an image [iw] x [ih] in a container
    [cw] x [ch]. *)
Definition fitSize (iw ih cw ch : Q) : Q * Q :=
  let imageAspectRatio := iw / ih in
  let containerAspectRatio := cw / ch in
  if negb (Qle_bool imageAspectRatio containerAspectRatio)
  then (cw, cw / imageAspectRatio)
  else (ch * imageAspectRatio, ch).

(** [newScale = newWidth / image.naturalWidth] *)
Definition fitScale (iw ih cw ch : Q) : Q := fst (fitSize iw ih cw ch) / iw.

(** [left] and [top] are those of [canvas.getBoundingClientRect()]. *)
Definition getCanvasCoordinates (clientX clientY left top scale : Q) : Point :=
  {| x := (clientX - left) / scale; y := (clientY - top) / scale |}.

(** ** Notions used by the further properties *)

(** [sameButPoint a b]: [b] is [a] with possibly another point. *)
Definition sameButPoint (a b : Annotation) : Prop :=
  id b = id a /\ description b = description a /\
  elementType b = elementType a /\ annotationType b = annotationType a.

(** A number with an integer value, as [Math.round] returns it. *)
Definition isInteger (q : Q) : Prop := exists z : Z, q = inject_Z z.

Definition integerPoint (a : Annotation) : Prop :=
  isInteger (x (point a)) /\ isInteger (y (point a)).


(** The annotation [addAnnotation] creates. *)
Definition manualAnnotation (now : Z) (pt : Point) (st : App) : Annotation :=
  {| id := now; point := pt; description := ""; elementType := "manual";
     annotationType := manualAnnotationType st |}.

(** An update that leaves the id, the point and the type as they are. *)
Definition textOnly (updates : Partial.t) : Prop :=
  Partial.id updates = None /\ Partial.point updates = None /\
  Partial.annotationType updates = None.

(** The update a drag move applies: the point becomes the rounded cursor. *)
Definition movedTo (dragged : Z) (pos : Point) (anno : Annotation) : Annotation :=
  if bool_decide (id anno = dragged)
  then spread anno
         (Partial.mk None (Some {| x := Math_round (x pos); y := Math_round (y pos) |})
            None None None)
  else anno.

(** [grows m l l']: [l'] is [l] with some points changed, followed by
    annotations that look as [addAnnotation] makes them for the manual type
    [m], possibly moved since. *)
Definition grows (m : AnnotationType) (l l' : list Annotation) : Prop :=
  exists kept added,
    l' = kept ++ added /\
    Forall2 sameButPoint l kept /\
    Forall (fun a => elementType a = "manual" /\ description a = "" /\
                     annotationType a = m) added.

(** A press of the primary button. *)
Definition primaryPress (ev : PointerEvent) : bool :=
  match ev with
  | MouseDown button _ => (button =? 0)%Z
  | _ => false
  end.

(** ** Spelling of a word up to case *)

(** The Kelvin sign (U+212A) in UTF-8. *)
Definition kelvinSign : string :=
  String "226" (String "132" (String "170" EmptyString)).

(** A lower-case ASCII letter. *)
Definition lowerLetter (c : ascii) : Prop := (97 <= nat_of_ascii c <= 122)%nat.

(** A word of lower-case ASCII letters. *)
Fixpoint lowerWord (w : string) : Prop :=
  match w with
  | EmptyString => True
  | String d w' => lowerLetter d /\ lowerWord w'
  end.

(** [spells s w]: [s] is the word [w] with each letter written in lower or
    in upper case, a [k] possibly written as the Kelvin sign. *)
Inductive spells : string -> string -> Prop :=
  | spells_nil : spells "" ""
  | spells_same c s w : spells s w -> spells (String c s) (String c w)
  | spells_upper c d s w :
      lowerLetter d -> nat_of_ascii d = (nat_of_ascii c + 32)%nat ->
      spells s w -> spells (String c s) (String d w)
  | spells_kelvin s w : spells s w -> spells (kelvinSign +:+ s) (String "k" w).

(** ** Well-formed sessions *)

(** The clock values read by the releases of a sequence of events. *)
Definition clocks (evs : list PointerEvent) : list Z := omap clockOf evs.

(** [wellFormed st rest]: the ids of the store and the clock values that the
    events [rest] will read are pairwise distinct, and the id being dragged,
    if any, belongs to annotations that pass the filter. *)
Definition wellFormed (st : App) (rest : list PointerEvent) : Prop :=
  NoDup (map id (annotations st) ++ clocks rest) /\
  (forall d b, draggingAnnotationId st = Some d -> b ∈ annotations st ->
     id b = d -> passes (displayFilter st) b = true).

(** The store of the session of C9 with the general-only filter, and the
    store with a general-only filter and the actionable manual type. *)
Definition collidingGeneralOnly : App :=
  mkApp (annotations collidingSession) (only general) general None None None None.

Definition addsHidden : App :=
  mkApp [marker7] (only general) actionable None None None None.
(** * Properties *)

Example ex1_sorted : map id (sortedAnnotations ex1) = [3%Z; 2%Z; 1%Z].
Proof. vm_compute. reflexivity. Qed.

Example ex1_labels : map snd (renderedLabels ex1 all) = ["1"; "A1"; "2"].
Proof. vm_compute. reflexivity. Qed.

Lemma compare_le_before a b :
  Qle_bool (compareAnnotations a b) 0 = true <-> before a b.
Proof.
  unfold compareAnnotations, before. rewrite Qle_bool_iff.
  destruct (Qeq_bool (y (point a)) (y (point b))) eqn:E; simpl.
  - apply Qeq_bool_iff in E. split; [intros; right; split; [exact E | lra] | ].
    intros [H | [_ H]]; lra.
  - apply Qeq_bool_neq in E. split; [intros; left; lra | ].
    intros [H | [H _]]; [lra | contradiction].
Qed.

Lemma compare_gt_before a b :
  Qle_bool (compareAnnotations a b) 0 = false -> before b a.
Proof.
  intros H. assert (N : ~ before a b).
  { intros B. apply compare_le_before in B. congruence. }
  unfold before in *.
  destruct (Qlt_le_dec (y (point b)) (y (point a))) as [L | L]; [left; exact L | ].
  destruct (Qlt_le_dec (y (point a)) (y (point b))) as [L' | L']; [tauto | ].
  right. split; [lra | ].
  destruct (Qlt_le_dec (x (point a)) (x (point b))) as [M | M]; [ | exact M].
  exfalso. apply N. right. split; lra.
Qed.

Lemma before_trans a b c : before a b -> before b c -> before a c.
Proof.
  unfold before. intros [H1 | [H1 H1']] [H2 | [H2 H2']].
  - left; lra.
  - left; lra.
  - left; lra.
  - right; split; lra.
Qed.

Section StableSort.
Context {A : Type} (cmp : A -> A -> Q) (R : A -> A -> Prop).
Hypothesis cmp_le : forall a b, Qle_bool (cmp a b) 0 = true -> R a b.
Hypothesis cmp_gt : forall a b, Qle_bool (cmp a b) 0 = false -> R b a.
Hypothesis R_trans : forall a b c, R a b -> R b c -> R a c.

Lemma sort_insert_perm a l : sort_insert cmp a l ≡ₚ a :: l.
Proof.
  induction l as [| b l IH]; simpl; [reflexivity | ].
  destruct (Qle_bool (cmp a b) 0); [reflexivity | ].
  rewrite IH. apply Permutation_swap.
Qed.

Lemma array_sort_perm l : array_sort cmp l ≡ₚ l.
Proof.
  induction l as [| a l IH]; simpl; [reflexivity | ].
  rewrite sort_insert_perm. by rewrite IH.
Qed.

Lemma sort_insert_sorted a l :
  StronglySorted R l -> StronglySorted R (sort_insert cmp a l).
Proof.
  induction 1 as [| b l Hs IH Hb]; simpl.
  - repeat constructor.
  - destruct (Qle_bool (cmp a b) 0) eqn:E.
    + apply cmp_le in E. constructor; [by constructor | ].
      constructor; [exact E | ].
      eapply Forall_impl; [exact Hb | ]. intros c Hc. by eapply R_trans.
    + apply cmp_gt in E. constructor; [exact IH | ].
      rewrite (sort_insert_perm a l). by constructor.
Qed.

Lemma array_sort_sorted l : StronglySorted R (array_sort cmp l).
Proof.
  induction l as [| a l IH]; simpl; [constructor | ].
  by apply sort_insert_sorted.
Qed.
End StableSort.

Lemma sortedAnnotations_perm annotations :
  sortedAnnotations annotations ≡ₚ annotations.
Proof. apply array_sort_perm. Qed.

Lemma sortedAnnotations_sorted annotations :
  StronglySorted before (sortedAnnotations annotations).
Proof.
  apply array_sort_sorted.
  - intros a b. apply compare_le_before.
  - apply compare_gt_before.
  - apply before_trans.
Qed.

(** *** The walk of [displayNumbers] *)

Lemma numberWalk_snoc l a :
  numberWalk (l ++ [a]) = numberStep (numberWalk l) a.
Proof. unfold numberWalk. by rewrite fold_left_app. Qed.

Lemma countType_snoc t l a :
  countType t (l ++ [a]) =
  if bool_decide (annotationType a = t) then S (countType t l) else countType t l.
Proof.
  unfold countType. rewrite List.filter_app, length_app. simpl.
  destruct (bool_decide (annotationType a = t)); simpl; lia.
Qed.

Lemma numberWalk_counts l :
  generalCount (numberWalk l) = S (countType general l) /\
  actionableCount (numberWalk l) = S (countType actionable l).
Proof.
  induction l as [| a l IH] using rev_ind; [done | ].
  rewrite numberWalk_snoc, !countType_snoc. destruct IH as [IHg IHa].
  unfold numberStep. destruct (annotationType a); simpl; rewrite ?IHg, ?IHa; done.
Qed.

Lemma numberStep_label st a :
  numberMap (numberStep st a) !! id a =
  Some (labelOf (annotationType a)
          (match annotationType a with
           | general => generalCount st
           | actionable => actionableCount st
           end)).
Proof.
  unfold numberStep. destruct (annotationType a); simpl; apply lookup_insert_eq.
Qed.

Lemma numberStep_other st a i :
  i <> id a -> numberMap (numberStep st a) !! i = numberMap st !! i.
Proof.
  intros H. unfold numberStep.
  destruct (annotationType a); simpl; by rewrite lookup_insert_ne.
Qed.

Lemma numberFold_untouched l st i :
  i ∉ map id l ->
  numberMap (fold_left numberStep l st) !! i = numberMap st !! i.
Proof.
  revert st. induction l as [| a l IH]; intros st H; [done | ].
  simpl in *. apply not_elem_of_cons in H as [H1 H2].
  rewrite IH by done. by apply numberStep_other.
Qed.

Lemma numberWalk_label pre a :
  displayNumbers (pre ++ [a]) !! id a =
  Some (labelOf (annotationType a) (S (countType (annotationType a) pre))).
Proof.
  unfold displayNumbers. rewrite numberWalk_snoc, numberStep_label.
  destruct (numberWalk_counts pre) as [Hg Ha].
  destruct (annotationType a); by rewrite ?Hg, ?Ha.
Qed.

Lemma displayNumbers_last pre a post :
  id a ∉ map id post ->
  displayNumbers (pre ++ a :: post) !! id a =
  Some (labelOf (annotationType a) (S (countType (annotationType a) pre))).
Proof.
  intros H. rewrite <- numberWalk_label.
  unfold displayNumbers, numberWalk at 1.
  rewrite (cons_middle a pre post), app_assoc, fold_left_app.
  by rewrite numberFold_untouched.
Qed.

(** *** Labels are pairwise distinct *)

Lemma pretty_N_go_head (n : N) (s : string) :
  (0 < n)%N ->
  exists c s', pretty_N_go n s = String c s' /\ c <> "A"%char.
Proof.
  revert s. induction (N.lt_wf_0 n) as [n _ IH]. intros s Hn.
  rewrite pretty_N_go_step by done.
  destruct (decide (n `div` 10 = 0)%N) as [E | E].
  - rewrite E, pretty_N_go_0. eexists _, _. split; [reflexivity | ].
    unfold pretty_N_char. by repeat case_match.
  - apply IH; [apply N.div_lt; lia | by apply N.neq_0_lt_0].
Qed.

Lemma pretty_nat_head (k : nat) :
  exists c s', pretty k = String c s' /\ c <> "A"%char.
Proof.
  unfold pretty, pretty_nat, pretty, pretty_N.
  case_decide as E.
  - by eexists _, _.
  - apply pretty_N_go_head. lia.
Qed.

Lemma pretty_nat_ne_A (k : nat) (s : string) : pretty k <> "A" +:+ s.
Proof.
  destruct (pretty_nat_head k) as (c & s' & -> & Hc).
  intros H. injection H as H1 _. by apply Hc.
Qed.

Lemma labelOf_inj t1 k1 t2 k2 :
  labelOf t1 k1 = labelOf t2 k2 -> t1 = t2 /\ k1 = k2.
Proof.
  destruct t1, t2; simpl; intros H.
  - split; [done | by apply (inj pretty)].
  - by apply pretty_nat_ne_A in H.
  - symmetry in H. by apply pretty_nat_ne_A in H.
  - simplify_eq. split; [done | by apply (inj pretty)].
Qed.

Lemma labelOf_nonempty t k : labelOf t k <> "".
Proof.
  destruct t; simpl; [ | done].
  by destruct (pretty_nat_head k) as (c & s' & -> & _).
Qed.

Lemma numberStep_as_insert st a :
  numberMap (numberStep st a) =
  <[id a := labelOf (annotationType a)
      (match annotationType a with
       | general => generalCount st | actionable => actionableCount st end)]>
    (numberMap st).
Proof. unfold numberStep. by destruct (annotationType a). Qed.

Lemma walkInv_step st a : walkInv st -> walkInv (numberStep st a).
Proof.
  intros [Hlab Hinj]. split.
  - intros i l. rewrite numberStep_as_insert.
    rewrite lookup_insert_Some. intros [[_ <-] | [_ H]].
    + exists (annotationType a). eexists. split; [reflexivity | ].
      unfold numberStep. destruct (annotationType a); simpl; lia.
    + destruct (Hlab _ _ H) as (t & k & -> & Hk). exists t, k. split; [done | ].
      unfold numberStep. destruct (annotationType a), t; simpl; lia.
  - assert (fresh : forall j,
      numberMap st !! j <> Some (labelOf (annotationType a)
        (match annotationType a with
         | general => generalCount st | actionable => actionableCount st end))).
    { intros j H. destruct (Hlab _ _ H) as (t & k & E & Hk).
      apply labelOf_inj in E as [<- <-]. lia. }
    intros i j l. rewrite numberStep_as_insert, !lookup_insert_Some.
    intros [[<- <-] | [Hi H1]] [[<- E] | [Hj H2]]; try done.
    + by apply fresh in H2.
    + subst l. by apply fresh in H1.
    + by eapply Hinj.
Qed.

Lemma walkInv_fold l st : walkInv st -> walkInv (fold_left numberStep l st).
Proof.
  revert st. induction l as [| a l IH]; intros st H; [done | ].
  simpl. by apply IH, walkInv_step.
Qed.

Lemma walkInv_numberWalk l : walkInv (numberWalk l).
Proof.
  apply walkInv_fold. split; simpl; intros *; by rewrite lookup_empty.
Qed.

Lemma numberFold_dom l st i :
  is_Some (numberMap (fold_left numberStep l st) !! i) <->
  is_Some (numberMap st !! i) \/ i ∈ map id l.
Proof.
  revert st. induction l as [| a l IH]; intros st; simpl.
  - rewrite elem_of_nil. tauto.
  - rewrite IH, elem_of_cons, numberStep_as_insert, lookup_insert_is_Some.
    destruct (decide (id a = i)) as [E | E]; [split; intros _; auto | ].
    split; intros [H | H]; auto.
    + destruct H as [H | [_ H]]; [done | by left].
    + destruct H as [-> | H]; [done | by right].
Qed.

Lemma displayNumbers_dom l i :
  is_Some (displayNumbers l !! i) <-> i ∈ map id l.
Proof.
  unfold displayNumbers, numberWalk. rewrite numberFold_dom. simpl.
  rewrite lookup_empty. split; [intros [[? ?] | ?]; done | by right].
Qed.

Lemma displayNumbers_inj l i j s :
  displayNumbers l !! i = Some s -> displayNumbers l !! j = Some s -> i = j.
Proof. apply (walkInv_numberWalk l). Qed.

Lemma displayNumbers_nonempty l i s : displayNumbers l !! i = Some s -> s <> "".
Proof.
  intros H. destruct (walkInv_numberWalk l) as [Hlab _].
  destruct (Hlab _ _ H) as (t & k & -> & _). apply labelOf_nonempty.
Qed.

Lemma idText_lookup l a :
  id a ∈ map id l -> displayNumbers l !! id a = Some (idText (displayNumbers l) a).
Proof.
  intros H. apply displayNumbers_dom in H as [s Hs]. unfold idText. rewrite Hs.
  rewrite bool_decide_eq_false_2; [done | by eapply displayNumbers_nonempty].
Qed.

Lemma filteredAnnotations_passes f l :
  filteredAnnotations f l = List.filter (passes f) l.
Proof.
  destruct f as [| t]; simpl; [ | done].
  induction l as [| a l IH]; simpl; congruence.
Qed.

(** ** Detection post-processing *)

Example detect_offscreen :
  detectAnnotations (mkImage 800 600) (fun _ => 1000%Z)
    [box (-50) (-50) (-10) (-10) "a" "button"; box 30 30 20 40 "b" "link"] = [].
Proof. vm_compute. reflexivity. Qed.

Example detect_anchor :
  map point (detectAnnotations (mkImage 800 600) (fun _ => 1000%Z)
    [box 700 10 900 50 "a" "button"]) = [mkPoint 800 10].
Proof. vm_compute. reflexivity. Qed.

Lemma Qmax_cases a b : (a <= b /\ Qmax a b = b) \/ (b <= a /\ Qmax a b = a).
Proof.
  unfold Qmax, GenericMinMax.gmax.
  destruct (Qcompare_spec a b) as [E | L | L].
  - right. split; [lra | done].
  - left. split; [lra | done].
  - right. split; [lra | done].
Qed.

Lemma Qmin_cases a b : (a <= b /\ Qmin a b = a) \/ (b <= a /\ Qmin a b = b).
Proof.
  unfold Qmin, GenericMinMax.gmin.
  destruct (Qcompare_spec a b) as [E | L | L].
  - left. split; [lra | done].
  - left. split; [lra | done].
  - right. split; [lra | done].
Qed.

Lemma numberOfN_nonneg n : 0 <= numberOfN n.
Proof. unfold numberOfN, Qle. simpl. lia. Qed.

Lemma Qle_bool_false a b : Qle_bool a b = false <-> b < a.
Proof.
  split; intros H.
  - apply Qnot_le_lt. intros L. apply Qle_bool_iff in L. congruence.
  - destruct (Qle_bool a b) eqn:E; [ | done]. apply Qle_bool_iff in E. lra.
Qed.

Lemma invalidOrOffscreen_true image tl br :
  invalidOrOffscreen image tl br = true <->
  (x tl >= x br \/ y tl >= y br \/
   x br <= 0 \/ x tl >= numberOfN (naturalWidth image) \/
   y br <= 0 \/ y tl >= numberOfN (naturalHeight image)).
Proof.
  unfold invalidOrOffscreen. rewrite !orb_true_iff, !Qle_bool_iff. tauto.
Qed.

Lemma invalidOrOffscreen_false image tl br :
  invalidOrOffscreen image tl br = false <->
  (x tl < x br /\ y tl < y br /\
   0 < x br /\ x tl < numberOfN (naturalWidth image) /\
   0 < y br /\ y tl < numberOfN (naturalHeight image)).
Proof.
  unfold invalidOrOffscreen. rewrite !orb_false_iff, !Qle_bool_false. tauto.
Qed.

Lemma discarded_rejectable image obj :
  discarded image obj = true <-> rejectable image obj.
Proof.
  unfold discarded, rejectable.
  destruct (DetectedObject.topLeft obj) as [tl | ];
    [ | split; [by left | done]].
  destruct (DetectedObject.bottomRight obj) as [br | ];
    [ | split; [by right; left | done]].
  rewrite invalidOrOffscreen_true. split.
  - intros H. right. right. by exists tl, br.
  - intros [H | [H | (tl' & br' & E1 & E2 & H)]]; [done | done | ].
    by simplify_eq.
Qed.

Lemma detectCallback_None image now obj index :
  detectCallback image now obj index = None <-> discarded image obj = true.
Proof.
  unfold detectCallback, discarded.
  destruct (DetectedObject.topLeft obj), (DetectedObject.bottomRight obj); try done.
  by destruct (invalidOrOffscreen image _ _).
Qed.

Lemma detectCallback_description image now obj index a :
  detectCallback image now obj index = Some a ->
  description a = DetectedObject.description obj.
Proof.
  unfold detectCallback.
  destruct (DetectedObject.topLeft obj), (DetectedObject.bottomRight obj); try done.
  destruct (invalidOrOffscreen image _ _); [done | ]. by intros [= <-].
Qed.

Lemma detect_kept_in_order image (f : nat -> DetectedObject.t -> option Annotation) objs :
  (forall i obj, exists now index, f i obj = detectCallback image now obj index) ->
  map description (omap (fun anno => anno) (imap f objs)) =
  map DetectedObject.description (List.filter (fun o => negb (discarded image o)) objs).
Proof.
  revert f. induction objs as [| obj objs IH]; intros f Hf; [done | ].
  rewrite imap_cons. simpl.
  destruct (Hf 0%nat obj) as (now & index & E). rewrite E.
  destruct (detectCallback image now obj index) as [a | ] eqn:D.
  - assert (N : discarded image obj = false).
    { destruct (discarded image obj) eqn:X; [ | done].
      apply detectCallback_None with (now := now) (index := index) in X. congruence. }
    rewrite N. simpl. f_equal; [by eapply detectCallback_description | ].
    apply IH. intros i o. apply Hf.
  - apply detectCallback_None in D. rewrite D. simpl.
    apply IH. intros i o. apply Hf.
Qed.

Lemma includes_elem_of l s : includes l s = true <-> s ∈ l.
Proof.
  unfold includes. rewrite existsb_exists, list_elem_of_In. split.
  - intros (s' & H & E). apply String.eqb_eq in E. by subst.
  - intros H. exists s. split; [done | apply String.eqb_refl].
Qed.

Lemma detectCallback_Some image now obj index a :
  detectCallback image now obj index = Some a ->
  exists tl br,
    DetectedObject.topLeft obj = Some tl /\
    DetectedObject.bottomRight obj = Some br /\
    invalidOrOffscreen image tl br = false /\
    point a =
      {| x := Qmax 0 (Qmin (Qmin (numberOfN (naturalWidth image)) (x br))
                        (numberOfN (naturalWidth image)));
         y := Qmax 0 (Qmin (Qmax 0 (y tl)) (numberOfN (naturalHeight image))) |} /\
    elementType a =
      (if bool_decide (DetectedObject.elementType obj = "") then "other"
       else DetectedObject.elementType obj) /\
    annotationType a =
      (if includes ACTIONABLE_TYPES (toLowerCase (elementType a))
       then actionable else general).
Proof.
  unfold detectCallback.
  destruct (DetectedObject.topLeft obj) as [tl | ]; [ | done].
  destruct (DetectedObject.bottomRight obj) as [br | ]; [ | done].
  destruct (invalidOrOffscreen image tl br) eqn:E; [done | ].
  intros [= <-]. by exists tl, br.
Qed.

(** ** The canvas handlers *)

Lemma canvasAnnotations_setDragStartPos start st :
  canvasAnnotations (setDragStartPos start st) = canvasAnnotations st.
Proof. reflexivity. Qed.

Lemma handleMouseDown_hit p st a :
  getAnnotationAtPos (canvasAnnotations st) p = Some a ->
  handleMouseDown 0 p st =
  setDraggingAnnotationId (Some (id a)) (setDragStartPos (Some p) st).
Proof.
  intros H. unfold handleMouseDown. simpl.
  by rewrite canvasAnnotations_setDragStartPos, H.
Qed.

Lemma handleMouseDown_miss p st :
  getAnnotationAtPos (canvasAnnotations st) p = None ->
  handleMouseDown 0 p st = setDragStartPos (Some p) st.
Proof.
  intros H. unfold handleMouseDown. simpl.
  by rewrite canvasAnnotations_setDragStartPos, H.
Qed.

Lemma handleMouseUp_far button q now st start :
  dragStartPos st = Some start ->
  5 * 5 <= squaredDistance q start ->
  annotations (handleMouseUp button q now st) = annotations st /\
  selectedAnnotationId (handleMouseUp button q now st) = selectedAnnotationId st.
Proof.
  intros Hs Hd. unfold handleMouseUp.
  destruct (negb (button =? 0)%Z); [done | ]. simpl. rewrite Hs.
  apply Qle_bool_iff in Hd. rewrite Hd. done.
Qed.

Lemma handleMouseUp_dragging button q now st d :
  draggingAnnotationId st = Some d ->
  annotations (handleMouseUp button q now st) = annotations st /\
  selectedAnnotationId (handleMouseUp button q now st) = selectedAnnotationId st.
Proof.
  intros Hd. unfold handleMouseUp.
  destruct (negb (button =? 0)%Z); [done | ]. simpl. rewrite Hd.
  destruct (dragStartPos st); [ | done].
  rewrite bool_decide_eq_true_2 by done. by rewrite andb_false_r.
Qed.

(** The toggle is reached by a press that misses every marker followed by a
    release, less than 5 pixels away, that hits one. *)
Lemma handleMouseUp_toggle p q now st a :
  draggingAnnotationId st = None ->
  getAnnotationAtPos (canvasAnnotations st) p = None ->
  squaredDistance q p < 5 * 5 ->
  getAnnotationAtPos (canvasAnnotations st) q = Some a ->
  let st' := handleMouseUp 0 q now (handleMouseDown 0 p st) in
  annotations st' = annotations st /\
  selectedAnnotationId st' =
    if bool_decide (selectedAnnotationId st = Some (id a)) then None else Some (id a).
Proof.
  intros Hidle Hp Hd Hq. rewrite handleMouseDown_miss by done.
  unfold handleMouseUp. simpl. rewrite Hidle.
  apply Qle_bool_false in Hd. rewrite Hd. simpl.
  change (canvasAnnotations (setDragStartPos (Some p) st)) with (canvasAnnotations st).
  rewrite Hq. done.
Qed.

Lemma updateAnnotation_lookup d updates st i a :
  annotations st !! i = Some a ->
  annotations (updateAnnotation d updates st) !! i =
  Some (if bool_decide (id a = d) then spread a updates else a).
Proof.
  intros H. unfold updateAnnotation. simpl.
  rewrite list_lookup_fmap, H. done.
Qed.

(** ** Hit testing *)

Lemma find_rev_last {A} (f : A -> bool) (l : list A) (b : A) :
  List.find f (rev l) = Some b ->
  exists pre post,
    l = pre ++ b :: post /\ f b = true /\ Forall (fun c => f c = false) post.
Proof.
  induction l as [| c l IH] using rev_ind; [done | ].
  rewrite rev_unit. simpl. destruct (f c) eqn:E.
  - intros [= <-]. exists l, []. by repeat split.
  - intros H. destruct (IH H) as (pre & post & -> & Hb & Hpost).
    exists pre, (post ++ [c]). split; [by rewrite <- app_assoc | ].
    split; [done | ]. apply Forall_app. split; [done | by constructor].
Qed.

Lemma getAnnotationAtPos_last l pos b :
  getAnnotationAtPos l pos = Some b ->
  exists pre post,
    l = pre ++ b :: post /\ inPickRadius pos b = true /\
    Forall (fun c => inPickRadius pos c = false) post.
Proof. apply find_rev_last. Qed.

Lemma canvasAnnotations_elem st b :
  b ∈ canvasAnnotations st <->
  b ∈ annotations st /\ passes (displayFilter st) b = true.
Proof.
  unfold canvasAnnotations, visibleAnnotations.
  rewrite filteredAnnotations_passes, list_elem_of_In, List.filter_In.
  rewrite <- list_elem_of_In. by rewrite (sortedAnnotations_perm (annotations st)).
Qed.

Lemma hit_is_visible st pos b :
  getAnnotationAtPos (canvasAnnotations st) pos = Some b ->
  b ∈ annotations st /\ passes (displayFilter st) b = true.
Proof.
  intros H. apply getAnnotationAtPos_last in H as (pre & post & E & _ & _).
  apply canvasAnnotations_elem. rewrite E. apply elem_of_app. right. by left.
Qed.

Lemma hit_other_id st pos i b :
  (forall c, c ∈ annotations st -> id c = i -> passes (displayFilter st) c = false) ->
  getAnnotationAtPos (canvasAnnotations st) pos = Some b ->
  id b <> i.
Proof.
  intros Hhid H E. apply hit_is_visible in H as [Hin Hvis].
  rewrite (Hhid b Hin E) in Hvis. done.
Qed.

(** The goal of [handle_keepsId] when the event leaves the state as it is. *)
Ltac unchanged Hkeep :=
  split; [reflexivity | split; [exact Hkeep | split; intros Hprev; exact Hprev]].

(** One event leaves alone an id that only hidden annotations carry. *)
Lemma handle_keepsId i l0 st ev :
  (forall b, b ∈ l0 -> id b = i -> passes (displayFilter st) b = false) ->
  clockOf ev <> Some i ->
  keepsId i l0 st ->
  let st' := handle st ev in
  displayFilter st' = displayFilter st /\
  keepsId i l0 st' /\
  (selectedAnnotationId st' = Some i -> selectedAnnotationId st = Some i) /\
  (annotationToDelete st' = Some i -> annotationToDelete st = Some i).
Proof.
  intros Hhid Hclock Hkeep. pose proof Hkeep as (Hsame & Hdrag).
  assert (Hhit : forall pos b,
    getAnnotationAtPos (canvasAnnotations st) pos = Some b -> id b <> i).
  { intros pos b. apply hit_other_id. intros c Hc Ec.
    apply Hhid; [by apply Hsame | done]. }
  destruct ev as [button pos | pos | button pos now | | pos]; simpl.
  - (* press *)
    unfold handleMouseDown. destruct (negb (button =? 0)%Z); [unchanged Hkeep | ].
    rewrite canvasAnnotations_setDragStartPos.
    destruct (getAnnotationAtPos (canvasAnnotations st) pos) as [b | ] eqn:E.
    + split; [done | ]. split; [ | done]. split; [done | ].
      simpl. intros [= N]. by apply (Hhit _ _ E).
    + split; [done | ]. by split.
  - (* move *)
    unfold handleMouseMove. destruct (draggingAnnotationId st) as [d | ] eqn:E;
      [ | unchanged Hkeep].
    assert (Nd : i <> d) by congruence.
    split; [done | ]. split; [ | done]. split; simpl; [ | by rewrite E].
    intros b Eb. rewrite <- (Hsame b Eb), list_elem_of_fmap. split.
    + intros (c & -> & Hc). case_bool_decide as Ec; [simpl in Eb; congruence | done].
    + intros Hb. exists b. split; [ | done].
      rewrite bool_decide_eq_false_2; [done | congruence].
  - (* release *)
    assert (Nn : now <> i) by (simpl in Hclock; congruence).
    unfold handleMouseUp. destruct (negb (button =? 0)%Z); [unchanged Hkeep | ].
    assert (Hidle : forall s, annotations s = annotations st ->
      selectedAnnotationId s = selectedAnnotationId st ->
      annotationToDelete s = annotationToDelete st ->
      displayFilter s = displayFilter st ->
      draggingAnnotationId s = None ->
      displayFilter s = displayFilter st /\ keepsId i l0 s /\
      (selectedAnnotationId s = Some i -> selectedAnnotationId st = Some i) /\
      (annotationToDelete s = Some i -> annotationToDelete st = Some i)).
    { intros s E1 E2 E3 E4 E5. split; [done | ]. unfold keepsId.
      rewrite E1, E2, E3, E5.
      split; [split; [exact Hsame | done] | split; intros H; exact H]. }
    cbv zeta. change (dragStartPos (setDraggingAnnotationId None st)) with (dragStartPos st).
    destruct (dragStartPos st) as [start | ]; [ | by apply Hidle].
    destruct (negb (Qle_bool (5 * 5) (squaredDistance pos start)) &&
              negb (bool_decide (draggingAnnotationId st <> None)));
      [ | by apply Hidle].
    destruct (getAnnotationAtPos (canvasAnnotations st) pos) as [b | ] eqn:E.
    + split; [done | ]. split; [by split | ]. split; [ | done]. simpl.
      case_bool_decide; [done | ]. intros [= N]. exfalso. by apply (Hhit _ _ E).
    + split; [done | ]. split; [ | split; [ | done]]; simpl.
      * split; [ | done]. intros b Eb. simpl. rewrite <- (Hsame b Eb), elem_of_app.
        split; [ | by left]. intros [Hb | Hb]; [done | ].
        apply list_elem_of_singleton in Hb. subst b. simpl in Eb. congruence.
      * intros [= N]. congruence.
  - (* leave *)
    split; [reflexivity | ].
    split; [split; [exact Hsame | simpl; done] | split; intros H; exact H].
  - (* context menu *)
    unfold handleContextMenu.
    destruct (getAnnotationAtPos (canvasAnnotations st) pos) as [b | ] eqn:E;
      [ | unchanged Hkeep].
    split; [done | ]. split; [exact Hkeep | ]. split; [done | ].
    simpl. intros [= N]. exfalso. by apply (Hhit _ _ E).
Qed.

Lemma handleAll_keepsId i l0 evs st :
  (forall b, b ∈ l0 -> id b = i -> passes (displayFilter st) b = false) ->
  Forall (fun ev => clockOf ev <> Some i) evs ->
  keepsId i l0 st ->
  let st' := handleAll evs st in
  displayFilter st' = displayFilter st /\
  keepsId i l0 st' /\
  (selectedAnnotationId st' = Some i -> selectedAnnotationId st = Some i) /\
  (annotationToDelete st' = Some i -> annotationToDelete st = Some i).
Proof.
  intros Hhid Hclock. revert st Hhid.
  induction Hclock as [| ev evs Hev _ IH]; intros st Hhid Hkeep;
    [simpl; split; [done | split; [exact Hkeep | split; intros H; exact H]] | ].
  destruct (handle_keepsId i l0 st ev Hhid Hev Hkeep) as (Hf & Hkeep' & Hsel & Hdel).
  destruct (IH (handle st ev)) as (Hf2 & Hkeep2 & Hsel2 & Hdel2);
    [by rewrite Hf | done | ].
  simpl. split; [by rewrite Hf2 | ]. split; [done | ]. split; auto.
Qed.

(** ** Ids *)

Lemma detectCallback_id image now obj index a :
  detectCallback image now obj index = Some a -> id a = (now + Z.of_nat index)%Z.
Proof.
  unfold detectCallback.
  destruct (DetectedObject.topLeft obj), (DetectedObject.bottomRight obj); try done.
  destruct (invalidOrOffscreen image _ _); [done | ]. by intros [= <-].
Qed.

Lemma detectFrom_cons image now start obj objs :
  detectFrom image now start (obj :: objs) =
  match detectCallback image (now start) obj start with
  | Some a => a :: detectFrom image now (S start) objs
  | None => detectFrom image now (S start) objs
  end.
Proof.
  unfold detectFrom. rewrite imap_cons. simpl. rewrite Nat.add_0_r.
  assert (E : imap ((fun i o => detectCallback image (now (start + i)%nat) o (start + i)%nat) ∘ S) objs
            = imap (fun i o => detectCallback image (now (S start + i)%nat) o (S start + i)%nat) objs).
  { apply imap_ext. intros i o _. simpl. by rewrite Nat.add_succ_r. }
  by rewrite E.
Qed.

(** Within one batch the ids increase strictly when the clock does not run
    backwards: the index added to the clock value separates them. *)
Lemma detectFrom_ids_increasing image now :
  (forall i j, (i <= j)%nat -> (now i <= now j)%Z) ->
  forall objs start,
    Forall (fun a => (now start + Z.of_nat start <= id a)%Z) (detectFrom image now start objs) /\
    StronglySorted (fun a b => (id a < id b)%Z) (detectFrom image now start objs).
Proof.
  intros Hmono. induction objs as [| obj objs IH]; intros start.
  - split; constructor.
  - rewrite detectFrom_cons. destruct (IH (S start)) as [Hlow Hsorted].
    assert (Hstep : (now start + Z.of_nat start < now (S start) + Z.of_nat (S start))%Z).
    { pose proof (Hmono start (S start)). lia. }
    assert (Hlow' : Forall (fun a => (now start + Z.of_nat start < id a)%Z)
                      (detectFrom image now (S start) objs)).
    { eapply Forall_impl; [exact Hlow | ]. simpl. intros a Ha. lia. }
    destruct (detectCallback image (now start) obj start) as [a | ] eqn:E.
    + apply detectCallback_id in E. split.
      * constructor; [lia | ].
        eapply Forall_impl; [exact Hlow' | ]. simpl. intros b Hb. lia.
      * constructor; [done | ]. by rewrite E.
    + split; [ | done].
      eapply Forall_impl; [exact Hlow' | ]. simpl. intros b Hb. lia.
Qed.

Lemma detectAnnotations_ids_distinct image now objs :
  (forall i j, (i <= j)%nat -> (now i <= now j)%Z) ->
  NoDup (map id (detectAnnotations image now objs)).
Proof.
  intros Hmono.
  destruct (detectFrom_ids_increasing image now Hmono objs 0) as [_ H].
  change (detectFrom image now 0 objs) with (detectAnnotations image now objs) in H.
  induction H as [| a l _ IH Ha]; simpl; constructor; [ | done].
  intros Hin. apply list_elem_of_fmap in Hin as (b & E & Hb).
  rewrite Forall_forall in Ha. specialize (Ha b Hb). lia.
Qed.

(** * Further properties *)

(** ** More on the stable sort *)

Section SortFacts.
Context {A : Type} (cmp : A -> A -> Q) (R : A -> A -> Prop).
Hypothesis cmp_iff : forall a b, Qle_bool (cmp a b) 0 = true <-> R a b.
Hypothesis cmp_gt : forall a b, Qle_bool (cmp a b) 0 = false -> R b a.
Hypothesis R_trans : forall a b c, R a b -> R b c -> R a c.

Lemma sort_insert_first a l : Forall (R a) l -> sort_insert cmp a l = a :: l.
Proof.
  intros H. destruct H as [| b l Hb _]; [done | ].
  simpl. apply cmp_iff in Hb. by rewrite Hb.
Qed.

Lemma array_sort_fixed l : StronglySorted R l -> array_sort cmp l = l.
Proof.
  induction 1 as [| a l _ IH Ha]; [done | ].
  simpl. rewrite IH. by apply sort_insert_first.
Qed.

Lemma filter_sort_insert (p : A -> bool) a l :
  StronglySorted R l ->
  List.filter p (sort_insert cmp a l) =
  if p a then sort_insert cmp a (List.filter p l) else List.filter p l.
Proof.
  induction 1 as [| b l Hs IH Hb]; simpl.
  - by destruct (p a).
  - destruct (Qle_bool (cmp a b) 0) eqn:E; simpl.
    + destruct (p a) eqn:Pa; [ | done].
      symmetry. apply sort_insert_first.
      apply cmp_iff in E.
      destruct (p b); [constructor; [done | ] | ];
        apply Forall_forall; intros c Hc;
        apply list_elem_of_In, List.filter_In in Hc as [Hc _];
        rewrite Forall_forall in Hb; apply (R_trans a b c E);
        apply Hb; by apply list_elem_of_In.
    + rewrite IH. destruct (p b), (p a); simpl; try done. by rewrite E.
Qed.

Lemma filter_array_sort (p : A -> bool) l :
  List.filter p (array_sort cmp l) = array_sort cmp (List.filter p l).
Proof.
  induction l as [| a l IH]; [done | ].
  simpl. rewrite filter_sort_insert.
  - destruct (p a); simpl; by rewrite IH.
  - apply array_sort_sorted; [ | done | done]. intros x0 y0. apply cmp_iff.
Qed.

Lemma array_sort_map (g : A -> A) l :
  (forall a b, cmp (g a) (g b) = cmp a b) ->
  array_sort cmp (map g l) = map g (array_sort cmp l).
Proof.
  intros Hg. induction l as [| a l IH]; [done | ].
  simpl. rewrite IH. generalize (array_sort cmp l). intros s.
  induction s as [| b s IHs]; [done | ].
  simpl. rewrite Hg. destruct (Qle_bool (cmp a b) 0); simpl; [done | by rewrite IHs].
Qed.
End SortFacts.

Lemma sortedAnnotations_fixed l :
  StronglySorted before l -> sortedAnnotations l = l.
Proof. apply array_sort_fixed. apply compare_le_before. Qed.

Lemma sortedAnnotations_filter (p : Annotation -> bool) l :
  List.filter p (sortedAnnotations l) = sortedAnnotations (List.filter p l).
Proof.
  apply (filter_array_sort compareAnnotations before).
  - apply compare_le_before.
  - apply compare_gt_before.
  - apply before_trans.
Qed.

Lemma StronglySorted_filter {A} (R : A -> A -> Prop) (p : A -> bool) l :
  StronglySorted R l -> StronglySorted R (List.filter p l).
Proof.
  induction 1 as [| a l _ IH Ha]; simpl; [constructor | ].
  destruct (p a); [ | done]. constructor; [done | ].
  apply Forall_forall. intros c Hc.
  apply list_elem_of_In, List.filter_In in Hc as [Hc _].
  rewrite Forall_forall in Ha. apply Ha. by apply list_elem_of_In.
Qed.

Lemma displayNumbers_map (g : Annotation -> Annotation) l :
  (forall a, id (g a) = id a /\ annotationType (g a) = annotationType a) ->
  displayNumbers (map g l) = displayNumbers l.
Proof.
  intros Hg. unfold displayNumbers, numberWalk.
  generalize {| numberMap := ∅; generalCount := 1; actionableCount := 1 |}.
  induction l as [| a l IH]; intros st; [done | ].
  simpl. rewrite IH. f_equal. f_equal.
  unfold numberStep. destruct (Hg a) as [-> ->]. done.
Qed.

(** ** More on the numbering *)

Lemma idText_of_lookup numbers a s :
  numbers !! id a = Some s -> s <> "" -> idText numbers a = s.
Proof.
  intros H Hs. unfold idText. rewrite H. by rewrite bool_decide_eq_false_2.
Qed.

Lemma countType_perm t l1 l2 : l1 ≡ₚ l2 -> countType t l1 = countType t l2.
Proof.
  intros H. unfold countType. apply Permutation_length.
  induction H as [| a l1 l2 _ IH | a b l | l1 l2 l3 _ IH1 _ IH2]; simpl.
  - done.
  - destruct (bool_decide (annotationType a = t)); [by constructor | done].
  - destruct (bool_decide (annotationType a = t)), (bool_decide (annotationType b = t));
      try done. apply perm_swap.
  - by etrans.
Qed.

Lemma labels_of_prefix t s pre post :
  NoDup (map id s) -> s = pre ++ post ->
  map (idText (displayNumbers s))
    (List.filter (fun a => bool_decide (annotationType a = t)) pre) =
  map (labelOf t) (seq 1 (countType t pre)).
Proof.
  intros Hnd. revert post. induction pre as [| a pre IH] using rev_ind; intros post E.
  - done.
  - rewrite <- app_assoc in E. simpl in E.
    rewrite List.filter_app, map_app, (IH _ E), countType_snoc.
    cbn [List.filter].
    case_bool_decide as Ht; [ | by rewrite app_nil_r].
    rewrite seq_S, map_app. cbn [map Nat.add]. f_equal. f_equal.
    apply idText_of_lookup; [ | apply labelOf_nonempty].
    rewrite E, <- Ht. apply displayNumbers_last.
    rewrite E, map_app in Hnd. apply NoDup_app in Hnd as (_ & _ & Hnd).
    simpl in Hnd. by apply NoDup_cons in Hnd as [Hnd _].
Qed.

(** ** The sidebar *)

Lemma find_none_iff {A} (p : A -> bool) l :
  List.find p l = None <-> Forall (fun a => p a = false) l.
Proof.
  induction l as [| a l IH]; simpl; [split; [constructor | done] | ].
  destruct (p a) eqn:E.
  - split; [done | ]. intros H. apply Forall_cons_1 in H as [H _]. congruence.
  - rewrite IH. split; [by constructor | ]. intros H. by apply Forall_cons_1 in H as [_ H].
Qed.

Lemma updateAnnotation_textOnly_fields i updates a :
  textOnly updates ->
  let b := if bool_decide (id a = i) then spread a updates else a in
  id b = id a /\ point b = point a /\ annotationType b = annotationType a.
Proof.
  intros (Hi & Hp & Ht). simpl. case_bool_decide; [ | done].
  unfold spread. simpl. by rewrite Hi, Hp, Ht.
Qed.

Lemma updateAnnotation_textOnly_views i updates st :
  textOnly updates ->
  let g := fun anno => if bool_decide (id anno = i) then spread anno updates else anno in
  sortedAnnotations (annotations (updateAnnotation i updates st)) =
    map g (sortedAnnotations (annotations st)) /\
  displayNumbers (sortedAnnotations (annotations (updateAnnotation i updates st))) =
    displayNumbers (sortedAnnotations (annotations st)).
Proof.
  intros Htext g.
  assert (Hg : forall a, id (g a) = id a /\ point (g a) = point a /\
                         annotationType (g a) = annotationType a).
  { intros a. by apply updateAnnotation_textOnly_fields. }
  assert (E : sortedAnnotations (annotations (updateAnnotation i updates st)) =
              map g (sortedAnnotations (annotations st))).
  { change (annotations (updateAnnotation i updates st)) with (map g (annotations st)).
    apply (array_sort_map compareAnnotations g). intros a b. unfold compareAnnotations.
    destruct (Hg a) as (_ & -> & _). by destruct (Hg b) as (_ & -> & _). }
  split; [exact E | ]. rewrite E. apply displayNumbers_map.
  intros a. destruct (Hg a) as (? & _ & ?). done.
Qed.

(** ** Deletion *)

Lemma filter_all_true {A} (p : A -> bool) l :
  Forall (fun a => p a = true) l -> List.filter p l = l.
Proof.
  induction 1 as [| a l Ha _ IH]; simpl; [done | ]. by rewrite Ha, IH.
Qed.

Lemma deleteAnnotation_elem i st a :
  a ∈ annotations (deleteAnnotation i st) <-> a ∈ annotations st /\ id a <> i.
Proof.
  unfold deleteAnnotation.
  assert (E : forall s, annotations (if bool_decide (selectedAnnotationId st = Some i)
                          then setSelectedAnnotationId None s else s) = annotations s).
  { intros s. by case_bool_decide. }
  rewrite E. simpl. rewrite list_elem_of_In, List.filter_In, <- list_elem_of_In.
  rewrite negb_true_iff, bool_decide_eq_false. done.
Qed.

Lemma deleteAnnotation_annotations i st :
  annotations (deleteAnnotation i st) =
  List.filter (fun anno => negb (bool_decide (id anno = i))) (annotations st).
Proof. unfold deleteAnnotation. by case_bool_decide. Qed.

Lemma deleteAnnotation_selected i st :
  selectedAnnotationId (deleteAnnotation i st) =
  if bool_decide (selectedAnnotationId st = Some i) then None
  else selectedAnnotationId st.
Proof. unfold deleteAnnotation. by case_bool_decide. Qed.

Lemma filter_length_lt {A} (p : A -> bool) l a :
  a ∈ l -> p a = false -> (length (List.filter p l) < length l)%nat.
Proof.
  intros Hin Hp. induction l as [| b l IH]; [by apply elem_of_nil in Hin | ].
  simpl. apply elem_of_cons in Hin as [<- | Hin].
  - rewrite Hp. pose proof (List.filter_length_le p l). lia.
  - specialize (IH Hin). destruct (p b); simpl; lia.
Qed.

(** ** More on hit testing *)

Lemma find_skip {A} (p : A -> bool) l1 l2 :
  Forall (fun a => p a = false) l1 -> List.find p (l1 ++ l2) = List.find p l2.
Proof. induction 1 as [| a l Ha _ IH]; simpl; [done | ]. by rewrite Ha. Qed.

Lemma find_rev_last_iff {A} (p : A -> bool) (l : list A) (b : A) :
  List.find p (rev l) = Some b <->
  exists pre post,
    l = pre ++ b :: post /\ p b = true /\ Forall (fun c => p c = false) post.
Proof.
  split; [apply find_rev_last | ].
  intros (pre & post & -> & Hb & Hpost).
  rewrite rev_app_distr. simpl. rewrite <- app_assoc. simpl.
  rewrite find_skip; [simpl; by rewrite Hb | ].
  apply Forall_forall. intros c Hc. rewrite Forall_forall in Hpost.
  apply Hpost. by apply list_elem_of_In, in_rev, list_elem_of_In.
Qed.

Lemma find_rev_none_iff {A} (p : A -> bool) (l : list A) :
  List.find p (rev l) = None <-> Forall (fun c => p c = false) l.
Proof.
  rewrite find_none_iff, !Forall_forall. split; intros H c Hc; apply H.
  - by rewrite list_elem_of_In, <- in_rev, <- list_elem_of_In.
  - by rewrite list_elem_of_In, <- in_rev, <- list_elem_of_In in Hc.
Qed.

(** ** What one pointer event does to the store *)

Lemma handle_annotations st ev :
  manualAnnotationType (handle st ev) = manualAnnotationType st /\
  displayFilter (handle st ev) = displayFilter st /\
  (annotations (handle st ev) = annotations st \/
   (exists dragged pos,
      annotations (handle st ev) = map (movedTo dragged pos) (annotations st)) \/
   (exists now pos,
      annotations (handle st ev) =
        annotations st ++
          [manualAnnotation now {| x := Math_round (x pos); y := Math_round (y pos) |} st])).
Proof.
  destruct ev as [button pos | pos | button pos now | | pos]; simpl.
  - unfold handleMouseDown. destruct (negb (button =? 0)%Z); [by auto | ].
    rewrite canvasAnnotations_setDragStartPos.
    destruct (getAnnotationAtPos (canvasAnnotations st) pos); by auto.
  - unfold handleMouseMove. destruct (draggingAnnotationId st) as [d | ]; [ | by auto].
    split; [done | ]. split; [done | ]. right. left. by exists d, pos.
  - unfold handleMouseUp. destruct (negb (button =? 0)%Z); [by auto | ].
    cbv zeta. change (dragStartPos (setDraggingAnnotationId None st)) with (dragStartPos st).
    destruct (dragStartPos st) as [start | ]; [ | by auto].
    destruct (negb (Qle_bool (5 * 5) (squaredDistance pos start)) &&
              negb (bool_decide (draggingAnnotationId st <> None))); [ | by auto].
    destruct (getAnnotationAtPos (canvasAnnotations st) pos); [by auto | ].
    split; [done | ]. split; [done | ]. right. right. by exists now, pos.
  - by auto.
  - unfold handleContextMenu.
    destruct (getAnnotationAtPos (canvasAnnotations st) pos); by auto.
Qed.

Lemma sameButPoint_refl a : sameButPoint a a.
Proof. done. Qed.

Lemma sameButPoint_trans a b c :
  sameButPoint a b -> sameButPoint b c -> sameButPoint a c.
Proof. unfold sameButPoint. intros (-> & -> & -> & ->) (-> & -> & -> & ->). done. Qed.

Lemma sameButPoint_movedTo dragged pos a : sameButPoint a (movedTo dragged pos a).
Proof. unfold movedTo. by case_bool_decide. Qed.

Lemma Forall2_sameButPoint_refl l : Forall2 sameButPoint l l.
Proof. induction l; constructor; auto using sameButPoint_refl. Qed.

Lemma Forall2_sameButPoint_trans l1 l2 l3 :
  Forall2 sameButPoint l1 l2 -> Forall2 sameButPoint l2 l3 ->
  Forall2 sameButPoint l1 l3.
Proof.
  intros H. revert l3. induction H as [| a b l1 l2 Hab _ IH]; intros l3 H3.
  - by apply Forall2_nil_inv_l in H3 as ->.
  - apply Forall2_cons_inv_l in H3 as (c & l3' & Hbc & H3 & ->).
    constructor; [by eapply sameButPoint_trans | by apply IH].
Qed.

Lemma grows_refl m l : grows m l l.
Proof.
  exists l, []. rewrite app_nil_r.
  split; [done | ]. split; [apply Forall2_sameButPoint_refl | constructor].
Qed.

Lemma grows_trans m l1 l2 l3 : grows m l1 l2 -> grows m l2 l3 -> grows m l1 l3.
Proof.
  intros (k1 & a1 & -> & H1 & M1) (k2 & a2 & -> & H2 & M2).
  apply Forall2_app_inv_l in H2 as (k2a & k2b & Ha & Hb & ->).
  exists k2a, (k2b ++ a2). split; [by rewrite app_assoc | ].
  split; [by eapply Forall2_sameButPoint_trans | ].
  apply Forall_app. split; [ | done].
  clear -M1 Hb. induction Hb as [| a b l l' Hab _ IH]; [constructor | ].
  apply Forall_cons_1 in M1 as [(E1 & E2 & E3) M1].
  destruct Hab as (_ & D & E & T).
  constructor; [ | by apply IH]. by rewrite D, E, T.
Qed.

Lemma handle_grows st ev :
  grows (manualAnnotationType st) (annotations st) (annotations (handle st ev)).
Proof.
  destruct (handle_annotations st ev) as (_ & _ & [E | [(d & pos & E) | (now & pos & E)]]);
    rewrite E.
  - apply grows_refl.
  - exists (map (movedTo d pos) (annotations st)), []. rewrite app_nil_r.
    split; [done | ]. split; [ | constructor].
    generalize (annotations st). intros l.
    induction l as [| a l IH]; simpl; constructor;
      [apply sameButPoint_movedTo | exact IH].
  - eexists (annotations st), [_]. split; [done | ].
    split; [apply Forall2_sameButPoint_refl | ]. by repeat constructor.
Qed.

Lemma isInteger_round q : isInteger (Math_round q).
Proof. by eexists. Qed.

Lemma handle_integerPoints st ev :
  Forall integerPoint (annotations st) ->
  Forall integerPoint (annotations (handle st ev)).
Proof.
  intros H.
  destruct (handle_annotations st ev) as (_ & _ & [E | [(d & pos & E) | (now & pos & E)]]);
    rewrite E.
  - done.
  - apply Forall_fmap. eapply Forall_impl; [exact H | ].
    intros a Ha. unfold movedTo. simpl. case_bool_decide; [ | done].
    split; apply isInteger_round.
  - apply Forall_app. split; [done | ]. constructor; [ | constructor].
    split; apply isInteger_round.
Qed.

(** ** More on the detection *)





(** ** Visibility of an added annotation *)

Lemma squaredDistance_self p : squaredDistance p p == 0.
Proof. unfold squaredDistance. ring. Qed.

Lemma canvasAnnotations_add_hidden now pt st :
  passes (displayFilter st) (manualAnnotation now pt st) = false ->
  canvasAnnotations (addAnnotation now pt st) = canvasAnnotations st.
Proof.
  intros H. unfold canvasAnnotations, visibleAnnotations.
  rewrite !filteredAnnotations_passes, !sortedAnnotations_filter.
  change (annotations (addAnnotation now pt st))
    with (annotations st ++ [manualAnnotation now pt st]).
  change (displayFilter (addAnnotation now pt st)) with (displayFilter st).
  rewrite List.filter_app. simpl. rewrite H. by rewrite app_nil_r.
Qed.

(** ** The fit of the image in its container *)

Lemma fitSize_cases iw ih cw ch :
  0 < iw -> 0 < ih -> 0 < cw -> 0 < ch ->
  (cw * ih < iw * ch /\
   fst (fitSize iw ih cw ch) == cw /\ snd (fitSize iw ih cw ch) == cw * ih / iw) \/
  (iw * ch <= cw * ih /\
   fst (fitSize iw ih cw ch) == ch * iw / ih /\ snd (fitSize iw ih cw ch) == ch).
Proof.
  intros Hiw Hih Hcw Hch. unfold fitSize.
  assert (Ni : ~ iw == 0) by lra. assert (Nh : ~ ih == 0) by lra.
  assert (Nc : ~ ch == 0) by lra.
  destruct (Qle_bool (iw / ih) (cw / ch)) eqn:E; simpl.
  - right. apply Qle_bool_iff in E.
    split; [ | split; [field; lra | reflexivity]].
    apply (Qmult_le_compat_r _ _ (ih * ch)) in E; [ | nra].
    assert (E1 : iw / ih * (ih * ch) == iw * ch) by (field; lra).
    assert (E2 : cw / ch * (ih * ch) == cw * ih) by (field; lra).
    lra.
  - left. apply Qle_bool_false in E.
    split; [ | split; [reflexivity | field; lra]].
    apply (Qmult_lt_compat_r _ _ (ih * ch)) in E; [ | nra].
    assert (E1 : iw / ih * (ih * ch) == iw * ch) by (field; lra).
    assert (E2 : cw / ch * (ih * ch) == cw * ih) by (field; lra).
    lra.
Qed.

(** ** Lower case *)

Lemma toLowerCase_cons c s1 :
  (exists s3, String c s1 = kelvinSign +:+ s3 /\
              toLowerCase (String c s1) = String "k" (toLowerCase s3)) \/
  toLowerCase (String c s1) = String (toLowerChar c) (toLowerCase s1).
Proof.
  destruct s1 as [| c2 [| c3 s3]]; [by right | by right | ].
  cbn [toLowerCase].
  destruct (Ascii.eqb c "226" && Ascii.eqb c2 "132" && Ascii.eqb c3 "170") eqn:E;
    [ | by right].
  left. apply andb_true_iff in E as [E E3]. apply andb_true_iff in E as [E1 E2].
  apply Ascii.eqb_eq in E1, E2, E3. subst. by exists s3.
Qed.

Lemma toLowerCase_empty s : toLowerCase s = "" -> s = "".
Proof.
  destruct s as [| c s1]; [done | ].
  destruct (toLowerCase_cons c s1) as [(s3 & _ & ->) | ->]; done.
Qed.

Lemma toLowerCase_kelvin s : toLowerCase (kelvinSign +:+ s) = String "k" (toLowerCase s).
Proof. reflexivity. Qed.

Lemma toLowerChar_upper c d :
  lowerLetter d -> nat_of_ascii d = (nat_of_ascii c + 32)%nat -> toLowerChar c = d.
Proof.
  unfold lowerLetter, toLowerChar. intros Hd E.
  assert (H1 : (65 <=? nat_of_ascii c)%nat = true) by (apply Nat.leb_le; lia).
  assert (H2 : (nat_of_ascii c <=? 90)%nat = true) by (apply Nat.leb_le; lia).
  cbv zeta. rewrite H1, H2. simpl. rewrite <- E. apply ascii_nat_embedding.
Qed.

Lemma toLowerChar_lower c : lowerLetter c -> toLowerChar c = c.
Proof.
  unfold lowerLetter, toLowerChar. intros Hc. cbv zeta.
  assert (H2 : (nat_of_ascii c <=? 90)%nat = false) by (apply Nat.leb_gt; lia).
  by rewrite H2, andb_false_r.
Qed.

Lemma toLowerChar_cases c :
  toLowerChar c = c \/
  ((65 <= nat_of_ascii c <= 90)%nat /\
   nat_of_ascii (toLowerChar c) = (nat_of_ascii c + 32)%nat).
Proof.
  unfold toLowerChar. cbv zeta.
  destruct (65 <=? nat_of_ascii c)%nat eqn:H1; [ | by left].
  destruct (nat_of_ascii c <=? 90)%nat eqn:H2; [ | by left].
  right. apply Nat.leb_le in H1, H2. split; [lia | ].
  simpl. apply nat_ascii_embedding. lia.
Qed.

Lemma not_kelvin_letter c s s3 :
  (nat_of_ascii c < 226)%nat -> String c s <> kelvinSign +:+ s3.
Proof. intros H [= -> _]. vm_compute in H. lia. Qed.

(** On words of lower-case letters, [toLowerCase] gives the word exactly for
    the strings that spell it. *)
Lemma toLowerCase_spells s w :
  lowerWord w -> (toLowerCase s = w <-> spells s w).
Proof.
  intros Hw. split.
  - revert s Hw. induction w as [| d w IH]; intros s Hw E.
    + apply toLowerCase_empty in E as ->. constructor.
    + destruct Hw as [Hd Hw]. destruct s as [| c s1]; [done | ].
      destruct (toLowerCase_cons c s1) as [(s3 & Es & El) | El]; rewrite El in E.
      * injection E as <- E. rewrite Es. apply spells_kelvin. by apply IH.
      * injection E as <- E.
        destruct (toLowerChar_cases c) as [Ec | [_ Ec]].
        -- rewrite Ec. apply spells_same. by apply IH.
        -- apply spells_upper; [done | done | by apply IH].
  - intros H. induction H as [| c s w H IH | c d s w Hd E H IH | s w H IH].
    + done.
    + destruct Hw as [Hc Hw].
      destruct (toLowerCase_cons c s) as [(s3 & Es & _) | ->].
      * exfalso. apply (not_kelvin_letter c s s3); [ | done].
        unfold lowerLetter in Hc. lia.
      * by rewrite toLowerChar_lower, IH.
    + destruct Hw as [_ Hw].
      destruct (toLowerCase_cons c s) as [(s3 & Es & _) | ->].
      * exfalso. apply (not_kelvin_letter c s s3); [ | done].
        unfold lowerLetter in Hd. lia.
      * by rewrite (toLowerChar_upper c d Hd E), IH.
    + destruct Hw as [_ Hw]. by rewrite toLowerCase_kelvin, IH.
Qed.

Lemma lowerWord_actionable w : w ∈ ACTIONABLE_TYPES -> lowerWord w.
Proof.
  intros H. repeat (apply elem_of_cons in H as [-> | H];
    [vm_compute; repeat split; lia | ]).
  by apply elem_of_nil in H.
Qed.

Lemma detectCallback_type image now obj index a :
  detectCallback image now obj index = Some a ->
  annotationType a =
    if includes ACTIONABLE_TYPES
         (toLowerCase (if bool_decide (DetectedObject.elementType obj = "") then "other"
                       else DetectedObject.elementType obj))
    then actionable else general.
Proof.
  intros H. apply detectCallback_Some in H as (_ & _ & _ & _ & _ & _ & Het & Hat).
  by rewrite Hat, Het.
Qed.

(** ** The two one-type views *)

Lemma filter_split_length {A} (p : A -> bool) l :
  (length (List.filter p l) + length (List.filter (fun a => negb (p a)) l))%nat = length l.
Proof. induction l as [| a l IH]; simpl; [done | ]. destruct (p a); simpl; lia. Qed.

Lemma passes_one_type a :
  passes (only actionable) a = negb (passes (only general) a).
Proof. simpl. by destruct (annotationType a). Qed.

(** ** Selecting in the sidebar *)

Lemma selectedAnnotation_after_click a st :
  a ∈ canvasAnnotations st ->
  selectedAnnotationId st <> Some (id a) ->
  exists b, selectedAnnotation (sidebarItemClick a st) = Some b /\ id b = id a.
Proof.
  intros Hin Hsel. unfold selectedAnnotation, sidebarItemClick.
  rewrite bool_decide_eq_false_2 by congruence.
  change (canvasAnnotations (setSelectedAnnotationId (Some (id a)) st))
    with (canvasAnnotations st).
  change (selectedAnnotationId (setSelectedAnnotationId (Some (id a)) st))
    with (Some (id a)).
  destruct (List.find _ (canvasAnnotations st)) as [b | ] eqn:E.
  - exists b. split; [done | ]. apply find_some in E as [_ E].
    apply bool_decide_eq_true in E. congruence.
  - apply find_none_iff in E. rewrite Forall_forall in E.
    specialize (E a Hin). by rewrite bool_decide_eq_true_2 in E.
Qed.

(** ** After a release *)

Lemma handleMouseUp_idle q now st :
  draggingAnnotationId (handleMouseUp 0 q now st) = None /\
  dragStartPos (handleMouseUp 0 q now st) = None.
Proof.
  unfold handleMouseUp. simpl.
  destruct (dragStartPos st) as [start | ]; [ | done].
  destruct (negb (Qle_bool (5 * 5) (squaredDistance q start)) &&
            negb (bool_decide (draggingAnnotationId st <> None))); [ | done].
  by destruct (getAnnotationAtPos (canvasAnnotations st) q).
Qed.

(** ** Events without a press *)

Lemma handle_without_press st ev :
  draggingAnnotationId st = None -> dragStartPos st = None ->
  primaryPress ev = false ->
  annotations (handle st ev) = annotations st /\
  selectedAnnotationId (handle st ev) = selectedAnnotationId st /\
  draggingAnnotationId (handle st ev) = None /\
  dragStartPos (handle st ev) = None.
Proof.
  intros Hd Hs Hp. destruct ev as [button pos | pos | button pos now | | pos]; simpl in *.
  - unfold handleMouseDown. by rewrite Hp.
  - unfold handleMouseMove. by rewrite Hd.
  - unfold handleMouseUp. destruct (negb (button =? 0)%Z); [done | ].
    simpl. by rewrite Hs.
  - done.
  - unfold handleContextMenu.
    by destruct (getAnnotationAtPos (canvasAnnotations st) pos).
Qed.

Lemma handleAll_without_press evs st :
  draggingAnnotationId st = None -> dragStartPos st = None ->
  Forall (fun ev => primaryPress ev = false) evs ->
  annotations (handleAll evs st) = annotations st /\
  selectedAnnotationId (handleAll evs st) = selectedAnnotationId st /\
  draggingAnnotationId (handleAll evs st) = None /\
  dragStartPos (handleAll evs st) = None.
Proof.
  intros Hd Hs Hevs. revert st Hd Hs.
  induction Hevs as [| ev evs Hev _ IH]; intros st Hd Hs; [done | ].
  destruct (handle_without_press st ev Hd Hs Hev) as (Ha & Hsel & Hd' & Hs').
  destruct (IH (handle st ev) Hd' Hs') as (Ha2 & Hsel2 & Hd2 & Hs2).
  simpl. split; [congruence | ]. split; [congruence | done].
Qed.

(** ** Well-formed sessions *)

Lemma NoDup_map_inj {A B} (f : A -> B) (l : list A) a b :
  NoDup (map f l) -> a ∈ l -> b ∈ l -> f a = f b -> a = b.
Proof.
  induction l as [| c l IH]; intros Hnd Ha Hb E; [by apply elem_of_nil in Ha | ].
  simpl in Hnd. apply NoDup_cons in Hnd as [Hc Hnd].
  apply elem_of_cons in Ha as [-> | Ha]; apply elem_of_cons in Hb as [-> | Hb].
  - done.
  - exfalso. apply Hc. rewrite E. by apply list_elem_of_fmap_2.
  - exfalso. apply Hc. rewrite <- E. by apply list_elem_of_fmap_2.
  - by apply IH.
Qed.

Lemma passes_by_type f a b :
  annotationType a = annotationType b -> passes f a = passes f b.
Proof. intros E. destruct f; simpl; [done | by rewrite E]. Qed.

Lemma map_id_movedTo d pos l : map id (map (movedTo d pos) l) = map id l.
Proof.
  rewrite map_map. apply map_ext. intros a.
  by destruct (sameButPoint_movedTo d pos a) as (-> & _).
Qed.

(** The four ways an event acts on the store and on the dragged id. *)
Lemma handle_shape st ev :
  displayFilter (handle st ev) = displayFilter st /\
  ((annotations (handle st ev) = annotations st /\
    draggingAnnotationId (handle st ev) = draggingAnnotationId st) \/
   (annotations (handle st ev) = annotations st /\
    exists pos b, getAnnotationAtPos (canvasAnnotations st) pos = Some b /\
                  draggingAnnotationId (handle st ev) = Some (id b)) \/
   (exists d pos, draggingAnnotationId st = Some d /\
                  draggingAnnotationId (handle st ev) = Some d /\
                  annotations (handle st ev) = map (movedTo d pos) (annotations st)) \/
   (draggingAnnotationId (handle st ev) = None /\
    (annotations (handle st ev) = annotations st \/
     exists now pos, clockOf ev = Some now /\
       annotations (handle st ev) =
         annotations st ++
           [manualAnnotation now {| x := Math_round (x pos); y := Math_round (y pos) |} st]))).
Proof.
  destruct ev as [button pos | pos | button pos now | | pos]; simpl.
  - unfold handleMouseDown. destruct (negb (button =? 0)%Z); [by auto | ].
    rewrite canvasAnnotations_setDragStartPos.
    destruct (getAnnotationAtPos (canvasAnnotations st) pos) as [b | ] eqn:E; [ | by auto].
    split; [done | ]. right. left. split; [done | ]. by exists pos, b.
  - unfold handleMouseMove. destruct (draggingAnnotationId st) as [d | ] eqn:E; [ | by auto].
    split; [done | ]. right. right. left. exists d, pos.
    split; [done | ]. split; [exact E | done].
  - unfold handleMouseUp. destruct (negb (button =? 0)%Z); [by auto | ].
    cbv zeta. change (dragStartPos (setDraggingAnnotationId None st)) with (dragStartPos st).
    split; [ | right; right; right].
    + destruct (dragStartPos st) as [start | ]; [ | done].
      destruct (negb (Qle_bool (5 * 5) (squaredDistance pos start)) &&
                negb (bool_decide (draggingAnnotationId st <> None))); [ | done].
      by destruct (getAnnotationAtPos (canvasAnnotations st) pos).
    + destruct (dragStartPos st) as [start | ]; [ | by auto].
      destruct (negb (Qle_bool (5 * 5) (squaredDistance pos start)) &&
                negb (bool_decide (draggingAnnotationId st <> None))); [ | by auto].
      destruct (getAnnotationAtPos (canvasAnnotations st) pos); [by auto | ].
      split; [done | ]. right. by exists now, pos.
  - split; [done | ]. right. right. right. by auto.
  - unfold handleContextMenu.
    destruct (getAnnotationAtPos (canvasAnnotations st) pos); by auto.
Qed.

Lemma NoDup_drop_middle {A} (l r : list A) c : NoDup (l ++ c :: r) -> NoDup (l ++ r).
Proof.
  intros H. apply NoDup_app in H as (Hl & Hd & Hr).
  apply NoDup_cons in Hr as [_ Hr]. apply NoDup_app. split; [done | ]. split; [ | done].
  intros a Ha Har. apply (Hd a Ha). by right.
Qed.

Lemma NoDup_shift_middle {A} (l r : list A) c : NoDup (l ++ c :: r) -> NoDup ((l ++ [c]) ++ r).
Proof. by rewrite <- app_assoc. Qed.

Lemma clocks_cons ev rest :
  clocks (ev :: rest) = match clockOf ev with Some now => now :: clocks rest | None => clocks rest end.
Proof. unfold clocks. csimpl. by destruct (clockOf ev). Qed.

Lemma clocks_app evs1 evs2 : clocks (evs1 ++ evs2) = clocks evs1 ++ clocks evs2.
Proof.
  induction evs1 as [| ev evs1 IH]; [done | ].
  rewrite <- app_comm_cons, !clocks_cons, IH. by destruct (clockOf ev).
Qed.

Lemma NoDup_without_clock l ev rest :
  NoDup (l ++ clocks (ev :: rest)) -> NoDup (l ++ clocks rest).
Proof.
  rewrite clocks_cons. destruct (clockOf ev); [apply NoDup_drop_middle | done].
Qed.

Lemma wellFormed_step st ev rest :
  wellFormed st (ev :: rest) -> wellFormed (handle st ev) rest.
Proof.
  intros [Hnd Hdrag]. pose proof (NoDup_without_clock _ _ _ Hnd) as Hnd'.
  destruct (handle_shape st ev) as
    (Hf & [[Ea Ed] | [[Ea (pos & b & Hhit & Ed)] | [(d & pos & Ed0 & Ed & Ea) |
           [Ed [Ea | (now & pos & Ec & Ea)]]]]]);
    split; rewrite ?Ea, ?Ed, ?Hf; try done.
  - intros d c [= <-] Hc Eid.
    destruct (hit_is_visible _ _ _ Hhit) as [Hb Hvis].
    apply NoDup_app in Hnd' as (Hids & _ & _).
    by rewrite (NoDup_map_inj id _ c b Hids Hc Hb Eid).
  - by rewrite map_id_movedTo.
  - intros d' c [= <-] Hc Eid. apply list_elem_of_fmap in Hc as (c0 & -> & Hc0).
    destruct (sameButPoint_movedTo d pos c0) as (Ei & _ & _ & Et).
    rewrite (passes_by_type _ _ c0 Et). apply (Hdrag d c0 Ed0 Hc0). congruence.
  - rewrite map_app. simpl. rewrite clocks_cons, Ec in Hnd. by apply NoDup_shift_middle.
Qed.

Lemma wellFormed_trace evs st rest :
  wellFormed st (evs ++ rest) -> wellFormed (handleAll evs st) rest.
Proof.
  revert st. induction evs as [| ev evs IH]; intros st H; [done | ].
  simpl. apply IH, wellFormed_step. exact H.
Qed.

Lemma handleAll_displayFilter evs st :
  displayFilter (handleAll evs st) = displayFilter st.
Proof.
  revert st. induction evs as [| ev evs IH]; intros st; [done | ].
  simpl. rewrite IH. by destruct (handle_shape st ev) as [-> _].
Qed.

Lemma handleAll_grows evs st :
  grows (manualAnnotationType st) (annotations st) (annotations (handleAll evs st)).
Proof.
  revert st. induction evs as [| ev evs IH]; intros st; [apply grows_refl | ].
  simpl. eapply grows_trans; [apply handle_grows | ].
  destruct (handle_annotations st ev) as (Hm & _ & _). rewrite <- Hm. apply IH.
Qed.

Lemma clock_not_an_id (l : list Z) evs i :
  NoDup (l ++ clocks evs) -> i ∈ l -> Forall (fun ev => clockOf ev <> Some i) evs.
Proof.
  intros H Hi. apply NoDup_app in H as (_ & Hd & _).
  apply Forall_forall. intros ev Hev E. apply (Hd i Hi).
  unfold clocks. apply list_elem_of_omap. by exists ev.
Qed.

(** * The properties of the specification *)

(** C1.  For every annotation set, [sortedAnnotations] is a rearrangement of
    the set ordered by [point.y] ascending and, for equal [y], by [point.x]
    ascending.  [displayNumbers] walks that order once with two counters
    that start at 1: when the walk reaches an annotation [a] after the
    annotations [pre], it stores under [a.id] the decimal numeral of one plus
    the number of general annotations in [pre] if [a] is general, and ["A"]
    followed by the numeral of one plus the number of actionable annotations
    in [pre] otherwise; that entry is the one read back at the end unless a
    later annotation has the same id.  For the three annotations of the
    example the order is [{y:10,x:500}], [{y:50,x:10}], [{y:50,x:100}] and
    the labels are ["1"], ["A1"], ["2"]. *)
Theorem C1_display_order_and_labels (annotations : list Annotation) :
  let sorted := sortedAnnotations annotations in
  sorted ≡ₚ annotations /\
  StronglySorted before sorted /\
  (forall pre a post, sorted = pre ++ a :: post ->
     let label := labelOf (annotationType a) (S (countType (annotationType a) pre)) in
     displayNumbers (pre ++ [a]) !! id a = Some label /\
     (id a ∉ map id post -> displayNumbers sorted !! id a = Some label)) /\
  sortedAnnotations ex1 =
    [ mkAnnotation 3 (mkPoint 500 10) "" "manual" general;
      mkAnnotation 2 (mkPoint 10 50) "" "manual" actionable;
      mkAnnotation 1 (mkPoint 100 50) "" "manual" general ] /\
  map (idText (displayNumbers (sortedAnnotations ex1))) (sortedAnnotations ex1) =
    ["1"; "A1"; "2"].
Proof.
  intros sorted. split; [apply sortedAnnotations_perm | ].
  split; [apply sortedAnnotations_sorted | ].
  split; [ | split; vm_compute; reflexivity].
  intros pre a post E label. split; [apply numberWalk_label | ].
  intros H. rewrite E. by apply displayNumbers_last.
Qed.

Lemma C1_display_order_and_labels_witness :
  displayNumbers (sortedAnnotations ex1) !! 2%Z = Some "A1".
Proof.
  destruct (C1_display_order_and_labels ex1) as (_ & _ & H & _).
  apply (H [mkAnnotation 3 (mkPoint 500 10) "" "manual" general]
           (mkAnnotation 2 (mkPoint 10 50) "" "manual" actionable)
           [mkAnnotation 1 (mkPoint 100 50) "" "manual" general]).
  - vm_compute. reflexivity.
  - vm_compute. intros H1. by repeat (apply elem_of_cons in H1 as [H1 | H1]; [discriminate | ]);
      apply elem_of_nil in H1.
Defined.

(** C2.  For every annotation set and every display filter, the numbering
    object is computed from the whole sorted set: it holds a label for
    exactly the ids of the set, no two ids hold the same label, and the
    markers of the filtered view are the markers of the unfiltered view that
    pass the filter, in the same order and each with the text it has in the
    unfiltered view, which is its entry in the numbering object. *)
Theorem C2_numbering_stable_under_filter
    (annotations : list Annotation) (displayFilter : DisplayFilter) :
  let numbers := displayNumbers (sortedAnnotations annotations) in
  (forall i, is_Some (numbers !! i) <-> i ∈ map id annotations) /\
  (forall i j s, numbers !! i = Some s -> numbers !! j = Some s -> i = j) /\
  renderedLabels annotations displayFilter =
    List.filter (fun m => passes displayFilter (fst m)) (renderedLabels annotations all) /\
  (forall a s, (a, s) ∈ renderedLabels annotations displayFilter ->
     (a, s) ∈ renderedLabels annotations all /\ numbers !! id a = Some s).
Proof.
  intros numbers.
  assert (Hfilter : renderedLabels annotations displayFilter =
    List.filter (fun m => passes displayFilter (fst m)) (renderedLabels annotations all)).
  { unfold renderedLabels, visibleAnnotations.
    rewrite filteredAnnotations_passes. simpl.
    generalize (sortedAnnotations annotations) at 2 4. intros l.
    induction l as [| a l IH]; simpl; [done | ].
    destruct (passes displayFilter a); simpl; by rewrite IH. }
  split; [ | split; [ | split; [exact Hfilter | ]]].
  - intros i. unfold numbers. rewrite displayNumbers_dom.
    by rewrite (sortedAnnotations_perm annotations).
  - intros i j s. apply displayNumbers_inj.
  - intros a s H.
    assert (Hall : (a, s) ∈ renderedLabels annotations all).
    { rewrite Hfilter in H. apply list_elem_of_In, List.filter_In in H as [H _].
      by apply list_elem_of_In. }
    split; [exact Hall | ].
    unfold renderedLabels, visibleAnnotations in Hall. simpl in Hall.
    apply list_elem_of_fmap in Hall as (b & E & Hb). simplify_eq.
    apply idText_lookup. by apply list_elem_of_fmap_2.
Qed.

Lemma C2_numbering_stable_under_filter_witness :
  renderedLabels ex1 (only general) =
    [ (mkAnnotation 3 (mkPoint 500 10) "" "manual" general, "1");
      (mkAnnotation 1 (mkPoint 100 50) "" "manual" general, "2") ] /\
  displayNumbers (sortedAnnotations ex1) !! 1%Z = Some "2".
Proof.
  split; [vm_compute; reflexivity | ].
  destruct (C2_numbering_stable_under_filter ex1 (only general)) as (_ & _ & _ & H).
  apply (H (mkAnnotation 1 (mkPoint 100 50) "" "manual" general) "2").
  vm_compute. right. left.
Defined.

(** C4.  For every batch of raw boxes, the callback discards a box (returns
    [null], which the following [filter] drops) if and only if [topLeft] or
    [bottomRight] is missing, or [topLeft.x >= bottomRight.x], or
    [topLeft.y >= bottomRight.y], or [bottomRight.x <= 0], or
    [topLeft.x >= width], or [bottomRight.y <= 0], or [topLeft.y >= height].
    The result is a plain array (no error is raised) that holds one
    annotation for each box not discarded, in the original order, and it is
    empty when every box of the batch is discarded. *)
Theorem C4_invalid_boxes_discarded
    (image : Image) (now : nat -> Z) (detectedObjects : list DetectedObject.t) :
  (forall obj t index,
     detectCallback image t obj index = None <-> rejectable image obj) /\
  map description (detectAnnotations image now detectedObjects) =
    map DetectedObject.description
      (List.filter (fun o => negb (discarded image o)) detectedObjects) /\
  (forall obj, discarded image obj = true <-> rejectable image obj) /\
  (Forall (rejectable image) detectedObjects ->
   detectAnnotations image now detectedObjects = []).
Proof.
  assert (Hord : map description (detectAnnotations image now detectedObjects) =
    map DetectedObject.description
      (List.filter (fun o => negb (discarded image o)) detectedObjects)).
  { apply detect_kept_in_order. intros i obj. by exists (now i), i. }
  split; [ | split; [exact Hord | split; [apply discarded_rejectable | ]]].
  - intros obj t index. by rewrite detectCallback_None, discarded_rejectable.
  - intros Hall. apply (f_equal length) in Hord. rewrite !length_map in Hord.
    apply length_zero_iff_nil. rewrite Hord. apply length_zero_iff_nil.
    clear Hord. induction Hall as [| obj objs Hobj _ IH]; [done | ].
    simpl. apply discarded_rejectable in Hobj. by rewrite Hobj.
Qed.

Lemma C4_invalid_boxes_discarded_witness :
  detectAnnotations (mkImage 800 600) (fun _ => 1000%Z)
    [box 30 30 20 40 "b" "link"; box (-50) (-50) (-10) (-10) "a" "button";
     DetectedObject.mk None (Some (mkPoint 5 5)) "c" "tab"] = [].
Proof.
  apply C4_invalid_boxes_discarded.
  constructor; [ | constructor; [ | constructor; [ | constructor]]].
  - right. right. exists (mkPoint 30 30), (mkPoint 20 40).
    split; [reflexivity | ]. split; [reflexivity | ]. left. simpl. lra.
  - right. right. exists (mkPoint (-50) (-50)), (mkPoint (-10) (-10)).
    split; [reflexivity | ]. split; [reflexivity | ]. right. right. left. simpl. lra.
  - left. reflexivity.
Defined.

(** C5.  For every box the callback accepts, both corners clamped to the
    image, [(max(0, topLeft.x), max(0, topLeft.y))] and
    [(min(width, bottomRight.x), min(height, bottomRight.y))], lie in
    [[0,width] x [0,height]], and the point of the annotation is the
    top-right corner of the clamped box, [(x2, y1)], clamped once more, which
    leaves its value unchanged.  The box [{700,10}-{900,50}] on an 800x600
    image gets the point [{800,10}]. *)
Theorem C5_anchor_is_clamped_top_right
    (image : Image) (now : Z) (obj : DetectedObject.t) (index : nat) (a : Annotation) :
  detectCallback image now obj index = Some a ->
  let width := numberOfN (naturalWidth image) in
  let height := numberOfN (naturalHeight image) in
  (exists tl br,
    DetectedObject.topLeft obj = Some tl /\
    DetectedObject.bottomRight obj = Some br /\
    let x1 := Qmax 0 (x tl) in
    let y1 := Qmax 0 (y tl) in
    let x2 := Qmin width (x br) in
    let y2 := Qmin height (y br) in
    (0 <= x1 <= width /\ 0 <= y1 <= height) /\
    (0 <= x2 <= width /\ 0 <= y2 <= height) /\
    point a = {| x := Qmax 0 (Qmin x2 width); y := Qmax 0 (Qmin y1 height) |} /\
    x (point a) == x2 /\ y (point a) == y1 /\
    0 <= x (point a) <= width /\ 0 <= y (point a) <= height) /\
  (point <$> detectCallback (mkImage 800 600) now (box 700 10 900 50 "" "button") index)
    = Some (mkPoint 800 10).
Proof.
  intros H width height. split; [ | vm_compute; reflexivity].
  apply detectCallback_Some in H as (tl & br & Etl & Ebr & Hok & Hp & _).
  exists tl, br. split; [done | ]. split; [done | ].
  apply invalidOrOffscreen_false in Hok as (Hx & Hy & Hbx & Htx & Hby & Hty).
  fold width height in Htx, Hty, Hp.
  pose proof (numberOfN_nonneg (naturalWidth image)) as Hw. fold width in Hw.
  pose proof (numberOfN_nonneg (naturalHeight image)) as Hh. fold height in Hh.
  intros x1 y1 x2 y2. rewrite Hp. fold x2 y1. simpl.
  assert (B1 : 0 <= x1 <= width).
  { unfold x1. destruct (Qmax_cases 0 (x tl)) as [[? ->] | [? ->]]; lra. }
  assert (B2 : 0 <= y1 <= height).
  { unfold y1. destruct (Qmax_cases 0 (y tl)) as [[? ->] | [? ->]]; lra. }
  assert (B3 : 0 <= x2 <= width).
  { unfold x2. destruct (Qmin_cases width (x br)) as [[? ->] | [? ->]]; lra. }
  assert (B4 : 0 <= y2 <= height).
  { unfold y2. destruct (Qmin_cases height (y br)) as [[? ->] | [? ->]]; lra. }
  assert (E1 : Qmax 0 (Qmin x2 width) == x2).
  { destruct (Qmin_cases x2 width) as [[? ->] | [? ->]];
      destruct (Qmax_cases 0 x2) as [[? E] | [? E]];
      destruct (Qmax_cases 0 width) as [[? E'] | [? E']];
      rewrite ?E, ?E'; lra. }
  assert (E2 : Qmax 0 (Qmin y1 height) == y1).
  { destruct (Qmin_cases y1 height) as [[? ->] | [? ->]];
      destruct (Qmax_cases 0 y1) as [[? E] | [? E]];
      destruct (Qmax_cases 0 height) as [[? E'] | [? E']];
      rewrite ?E, ?E'; lra. }
  repeat split; try tauto; try exact E1; try exact E2; rewrite ?E1, ?E2; tauto.
Qed.

Lemma C5_anchor_is_clamped_top_right_witness :
  exists a,
    detectCallback (mkImage 800 600) 1000 (box 700 10 900 50 "" "button") 0 = Some a /\
    x (point a) == 800 /\ y (point a) == 10.
Proof.
  eexists. split; [vm_compute; reflexivity | ].
  destruct (C5_anchor_is_clamped_top_right (mkImage 800 600) 1000
              (box 700 10 900 50 "" "button") 0 _ eq_refl)
    as [(tl & br & Etl & Ebr & _ & _ & _ & Hx & Hy & _) _].
  injection Etl as <-. injection Ebr as <-.
  split; [exact Hx | exact Hy].
Defined.

(** C6, the claim as written fails for a blank element type that is not
    empty: the default is taken by [obj.elementType || 'other'], which
    replaces the empty string only.  A box with the element type [" "] is
    accepted and its annotation keeps [" "], not ["other"]. *)
Lemma C6_whitespace_type_is_kept :
  exists a,
    detectCallback (mkImage 800 600) 1000 (box 10 10 50 50 "" " ") 0 = Some a /\
    elementType a = " " /\ elementType a <> "other".
Proof. eexists. split; [vm_compute; reflexivity | ]. split; [reflexivity | discriminate]. Qed.

(** C6.  For every box the callback accepts, the element type of the
    annotation is ["other"] when the element type of the box is the empty
    string and the element type of the box, unchanged, otherwise (also when
    it is made of spaces).  The annotation is actionable exactly when its
    element type in lower case is one of ["button"], ["link"], ["tab"],
    that is, exactly when it spells one of these words with each letter in
    either case, and it is general otherwise.  [toLowerCase] gives a word of
    lower-case letters exactly for the strings that spell it.  The element
    types ["tab"], ["TAB"], ["Button"], ["LINK"] give actionable
    annotations; ["input"], ["Input"], the empty string and [" "] give
    general ones. *)
Theorem C6_element_type_classification
    (image : Image) (now : Z) (obj : DetectedObject.t) (index : nat) (a : Annotation) :
  detectCallback image now obj index = Some a ->
  (DetectedObject.elementType obj = "" -> elementType a = "other") /\
  (DetectedObject.elementType obj <> "" ->
   elementType a = DetectedObject.elementType obj) /\
  (annotationType a = actionable <->
   toLowerCase (elementType a) ∈ ["button"; "link"; "tab"]) /\
  (annotationType a = actionable <->
   exists w, w ∈ ["button"; "link"; "tab"] /\ spells (elementType a) w) /\
  (annotationType a = general <->
   toLowerCase (elementType a) ∉ ["button"; "link"; "tab"]) /\
  (forall s w, lowerWord w -> (toLowerCase s = w <-> spells s w)) /\
  toLowerCase "AZ@[`az{ Tab" = "az@[`az{ tab" /\
  map (fun t => annotationType <$>
         detectCallback (mkImage 800 600) now (box 10 10 50 50 "" t) index)
      ["tab"; "input"; "TAB"; "Button"; "LINK"; "Input"; ""; " "]
  = [Some actionable; Some general; Some actionable; Some actionable;
     Some actionable; Some general; Some general; Some general] /\
  map (fun t => elementType <$>
         detectCallback (mkImage 800 600) now (box 10 10 50 50 "" t) index)
      [""; " "; "Button"]
  = [Some "other"; Some " "; Some "Button"].
Proof.
  intros H.
  apply detectCallback_Some in H as (tl & br & _ & _ & _ & _ & Het & Hat).
  assert (Hin : annotationType a = actionable <->
                toLowerCase (elementType a) ∈ ["button"; "link"; "tab"]).
  { rewrite Hat. fold ACTIONABLE_TYPES. rewrite <- includes_elem_of.
    by destruct (includes ACTIONABLE_TYPES (toLowerCase (elementType a))). }
  split; [intros E; by rewrite Het, E | ].
  split; [intros E; rewrite Het; by rewrite bool_decide_eq_false_2 | ].
  split; [exact Hin | ]. split; [ | split].
  - rewrite Hin. split.
    + intros Hw. exists (toLowerCase (elementType a)). split; [done | ].
      apply toLowerCase_spells; [by apply lowerWord_actionable | done].
    + intros (w & Hw & Hs).
      apply toLowerCase_spells in Hs; [by rewrite Hs | by apply lowerWord_actionable].
  - rewrite Hat. fold ACTIONABLE_TYPES. rewrite <- includes_elem_of.
    destruct (includes ACTIONABLE_TYPES (toLowerCase (elementType a)));
      split; try done; intros N; by destruct N.
  - split; [intros s w; apply toLowerCase_spells | ].
    split; [reflexivity | ]. split; vm_compute; reflexivity.
Qed.

Lemma C6_element_type_classification_witness :
  exists a,
    detectCallback (mkImage 800 600) 1000 (box 10 10 50 50 "" "Button") 3 = Some a /\
    elementType a = "Button" /\ annotationType a = actionable.
Proof.
  eexists. split; [vm_compute; reflexivity | ].
  destruct (C6_element_type_classification (mkImage 800 600) 1000
              (box 10 10 50 50 "" "Button") 3 _ eq_refl) as (_ & H2 & _ & H4 & _).
  split; [apply H2; discriminate | ].
  apply H4. exists "button". split; [left | ].
  apply spells_upper; [vm_compute; lia | reflexivity | ].
  repeat apply spells_same. apply spells_nil.
Defined.

(** C3.  What the code does on a click on a marker: when the press of the
    primary button hits a marker, the press records its id in
    [draggingAnnotationId], the release reads that as [wasDragging] and skips
    the click branch, whatever the distance and without any move in between.
    The selection and the annotations are those before the press: the marker
    under the click is not selected, and if it was selected it stays so. *)
Theorem C3_click_on_marker_keeps_selection
    (st : App) (p q : Point) (now : Z) (a : Annotation) :
  getAnnotationAtPos (canvasAnnotations st) p = Some a ->
  let st' := handleMouseUp 0 q now (handleMouseDown 0 p st) in
  selectedAnnotationId st' = selectedAnnotationId st /\
  annotations st' = annotations st /\
  draggingAnnotationId st' = None.
Proof.
  intros H st'. unfold st'. rewrite (handleMouseDown_hit _ _ _ H).
  unfold handleMouseUp. simpl. by rewrite andb_false_r.
Qed.

Lemma C3_click_on_marker_keeps_selection_witness :
  let p := mkPoint 100 100 in
  let st' := handleMouseUp 0 p 50 (handleMouseDown 0 p oneMarker) in
  squaredDistance p p < 5 * 5 /\
  getAnnotationAtPos (canvasAnnotations oneMarker) p = Some marker7 /\
  selectedAnnotationId oneMarker = None /\
  selectedAnnotationId st' = None.
Proof.
  intros p st'.
  assert (Hhit : getAnnotationAtPos (canvasAnnotations oneMarker) p = Some marker7)
    by (vm_compute; reflexivity).
  split; [vm_compute; reflexivity | ]. split; [exact Hhit | ].
  split; [reflexivity | ].
  exact (proj1 (C3_click_on_marker_keeps_selection oneMarker p p 50 marker7 Hhit)).
Defined.

(** C7.  For every press of the primary button that hits no marker, with the
    controller idle, and every release less than 5 pixels from it that hits
    no marker either, the release appends exactly one annotation: its point
    is the release position with both coordinates rounded by [Math.round],
    its type is the manual-creation type, its element type is ["manual"],
    its description is empty and its id is the clock value; it becomes the
    selected annotation.  A click at (300,400) on an image with no marker
    yet leaves exactly one annotation, with point [{300,400}]. *)
Theorem C7_click_on_empty_space_adds_one
    (st : App) (p q : Point) (now : Z) :
  draggingAnnotationId st = None ->
  getAnnotationAtPos (canvasAnnotations st) p = None ->
  squaredDistance q p < 5 * 5 ->
  getAnnotationAtPos (canvasAnnotations st) q = None ->
  let st' := handleMouseUp 0 q now (handleMouseDown 0 p st) in
  annotations st' =
    annotations st ++
      [ {| id := now;
           point := {| x := Math_round (x q); y := Math_round (y q) |};
           description := "";
           elementType := "manual";
           annotationType := manualAnnotationType st |} ] /\
  length (annotations st') = S (length (annotations st)) /\
  selectedAnnotationId st' = Some now /\
  map point (annotations
    (handleMouseUp 0 (mkPoint 300 400) now
       (handleMouseDown 0 (mkPoint 300 400) initialApp))) = [mkPoint 300 400].
Proof.
  intros Hidle Hp Hd Hq st'.
  assert (E : st' = setDragStartPos None
    (addAnnotation now {| x := Math_round (x q); y := Math_round (y q) |}
       (setDraggingAnnotationId None (setDragStartPos (Some p) st)))).
  { unfold st'. rewrite handleMouseDown_miss by done.
    unfold handleMouseUp. simpl. rewrite Hidle.
    apply Qle_bool_false in Hd. rewrite Hd. simpl.
    change (canvasAnnotations (setDragStartPos (Some p) st)) with (canvasAnnotations st).
    by rewrite Hq. }
  rewrite E. simpl. split; [done | ]. split; [ | split; [done | ]].
  - rewrite length_app. simpl. lia.
  - vm_compute. reflexivity.
Qed.

Lemma C7_click_on_empty_space_adds_one_witness :
  annotations
    (handleMouseUp 0 (mkPoint (3004 # 10) (3996 # 10)) 50
       (handleMouseDown 0 (mkPoint 302 398) oneMarker)) =
  [marker7; mkAnnotation 50 (mkPoint 300 400) "" "manual" general].
Proof.
  refine (proj1 (C7_click_on_empty_space_adds_one oneMarker (mkPoint 302 398)
            (mkPoint (3004 # 10) (3996 # 10)) 50 _ _ _ _)).
  - reflexivity.
  - vm_compute. reflexivity.
  - vm_compute. reflexivity.
  - vm_compute. reflexivity.
Defined.

(** C8.  What the code does on a move event while [draggingAnnotationId]
    holds the id [d]: [updateAnnotation] maps the whole store by id.  The
    store keeps its length and order, every annotation with the id [d] keeps
    its id, description, element type and annotation type and gets the
    rounded cursor position as its point, every annotation with another id
    is unchanged, and the selection, the pending deletion and the dragged id
    are unchanged; a release 5 pixels or more from the press neither adds nor
    selects.  When the ids of the store are pairwise distinct, every
    annotation other than the dragged one is unchanged.  When they are not,
    the drag moves another annotation too: in the store left by the session
    with the ids 1000, 1001, 1002, 1002, dragging the manual marker 1002 from
    (400,300) to (500,500) also moves the detected link 1002 from (60,90) to
    (500,500). *)
Theorem C8_drag_moves_every_annotation_with_the_id :
  (forall (st : App) (pos : Point) (d : Z),
     draggingAnnotationId st = Some d ->
     let st' := handleMouseMove pos st in
     let target := {| x := Math_round (x pos); y := Math_round (y pos) |} in
     length (annotations st') = length (annotations st) /\
     (forall k a, annotations st !! k = Some a ->
        annotations st' !! k =
          Some (if bool_decide (id a = d)
                then mkAnnotation (id a) target (description a) (elementType a)
                       (annotationType a)
                else a)) /\
     (NoDup (map id (annotations st)) ->
      forall j k a b,
        annotations st !! j = Some a -> id a = d ->
        annotations st !! k = Some b -> k <> j ->
        annotations st' !! k = Some b) /\
     selectedAnnotationId st' = selectedAnnotationId st /\
     annotationToDelete st' = annotationToDelete st /\
     draggingAnnotationId st' = Some d) /\
  (forall s button q now start,
     dragStartPos s = Some start ->
     5 * 5 <= squaredDistance q start ->
     annotations (handleMouseUp button q now s) = annotations s /\
     selectedAnnotationId (handleMouseUp button q now s) = selectedAnnotationId s) /\
  map (fun a => (id a, elementType a, point a)) (annotations collidingSession) =
    [ (1000%Z, "button", mkPoint 60 10); (1001%Z, "input", mkPoint 60 50);
      (1002%Z, "link", mkPoint 60 90); (1002%Z, "manual", mkPoint 400 300) ] /\
  getAnnotationAtPos (canvasAnnotations collidingSession) (mkPoint 400 300) =
    Some (mkAnnotation 1002 (mkPoint 400 300) "" "manual" general) /\
  map (fun a => (id a, elementType a, point a))
    (annotations
       (handleAll [MouseDown 0 (mkPoint 400 300); MouseMove (mkPoint 500 500)]
          collidingSession)) =
    [ (1000%Z, "button", mkPoint 60 10); (1001%Z, "input", mkPoint 60 50);
      (1002%Z, "link", mkPoint 500 500); (1002%Z, "manual", mkPoint 500 500) ].
Proof.
  split; [ | split; [intros; by eapply handleMouseUp_far | ]].
  - intros st pos d Hd st' target. unfold st', handleMouseMove. rewrite Hd.
    assert (Hk : forall k a, annotations st !! k = Some a ->
      annotations (updateAnnotation d
         (Partial.mk None (Some target) None None None) st) !! k =
      Some (if bool_decide (id a = d)
            then mkAnnotation (id a) target (description a) (elementType a)
                   (annotationType a)
            else a)).
    { intros k a H. exact (updateAnnotation_lookup _ _ _ _ _ H). }
    split; [simpl; by rewrite length_map | ]. split; [exact Hk | ].
    split; [ | done].
    intros Hnd j k a b Hj Ea Hb Hjk. pose proof (Hk k b Hb) as E.
    rewrite bool_decide_eq_false_2 in E; [exact E | ].
    intros Eb. apply Hjk.
    apply (NoDup_lookup _ k j d Hnd); rewrite list_lookup_fmap.
    + by rewrite Hb; simpl; rewrite Eb.
    + by rewrite Hj; simpl; rewrite Ea.
  - split; [vm_compute; reflexivity | ]. split; vm_compute; reflexivity.
Qed.

Lemma C8_drag_moves_every_annotation_with_the_id_witness :
  let st := handleMouseDown 0 (mkPoint 100 100)
              (mkApp [marker7; hidden8] all general None None None None) in
  annotations (handleMouseMove (mkPoint (4996 # 10) (5002 # 10)) st) !! 0%nat =
    Some (mkAnnotation 7 (mkPoint 500 500) "" "manual" general) /\
  annotations (handleMouseMove (mkPoint (4996 # 10) (5002 # 10)) st) !! 1%nat =
    Some hidden8.
Proof.
  intros st.
  destruct (proj1 C8_drag_moves_every_annotation_with_the_id st
              (mkPoint (4996 # 10) (5002 # 10)) 7%Z eq_refl) as (_ & H & Hother & _).
  split; [exact (H 0%nat marker7 eq_refl) | ].
  apply (Hother) with (j := 0%nat) (a := marker7); try reflexivity; [ | lia].
  repeat constructor; vm_compute; intros N.
  - apply elem_of_cons in N as [N | N]; [discriminate | by apply elem_of_nil in N].
  - by apply elem_of_nil in N.
Defined.

(** C9.  What the code does with ids: an id is the clock value, plus the
    array index for a detected box.  A manual annotation added 2 ms after a
    batch of three boxes gets the id of the third box; two manual annotations
    added within the same millisecond get the same id; and the id of a
    deleted annotation is given again to an annotation added at that clock
    value.  In the first two sessions the store holds two different
    annotations with one id. *)
Theorem C9_timestamp_ids_collide :
  map id (annotations uploaded3) = [1000; 1001; 1002]%Z /\
  map id (annotations collidingSession) = [1000; 1001; 1002; 1002]%Z /\
  (exists a b,
     a ∈ annotations collidingSession /\ b ∈ annotations collidingSession /\
     point a <> point b /\ id a = id b) /\
  ~ NoDup (map id (annotations collidingSession)) /\
  map id (annotations sameMillisecondSession) = [2000; 2000]%Z /\
  map point (annotations sameMillisecondSession) = [mkPoint 400 300; mkPoint 500 300] /\
  map elementType (annotations (handleConfirmDelete
    (handleAll [ContextMenu (mkPoint 60 90)] uploaded3))) = ["button"; "input"] /\
  map (fun a => (id a, elementType a)) (annotations reuseAfterDeleteSession) =
    [(1000%Z, "button"); (1001%Z, "input"); (1002%Z, "manual")].
Proof.
  split; [vm_compute; reflexivity | ].
  split; [vm_compute; reflexivity | ].
  split.
  { exists (mkAnnotation 1002 (mkPoint 60 90) "Help" "link" actionable),
           (mkAnnotation 1002 (mkPoint 400 300) "" "manual" general).
    split; [vm_compute; do 2 right; left | ].
    split; [vm_compute; do 3 right; left | ].
    split; [discriminate | reflexivity]. }
  split.
  { assert (E : map id (annotations collidingSession) = [1000; 1001; 1002; 1002]%Z)
      by (vm_compute; reflexivity).
    rewrite E. intros H.
    apply NoDup_cons in H as [_ H]. apply NoDup_cons in H as [_ H].
    apply NoDup_cons in H as [H _]. apply H. left. }
  repeat split; vm_compute; reflexivity.
Qed.

(** With two annotations under one id (the store of the colliding session)
    and the general-only filter, the detected link 1002 is hidden and the
    manual marker 1002 is visible: dragging the marker also moves the hidden
    link, and a confirmed right-click on the marker also deletes it. *)
Lemma colliding_ids_reach_the_hidden_twin :
  map id (canvasAnnotations collidingGeneralOnly) = [1001%Z; 1002%Z] /\
  map (fun a => (id a, elementType a, point a))
    (annotations
       (handleAll [MouseDown 0 (mkPoint 400 300); MouseMove (mkPoint 500 500)]
          collidingGeneralOnly)) =
    [ (1000%Z, "button", mkPoint 60 10); (1001%Z, "input", mkPoint 60 50);
      (1002%Z, "link", mkPoint 500 500); (1002%Z, "manual", mkPoint 500 500) ] /\
  map (fun a => (id a, elementType a))
    (annotations
       (handleConfirmDelete
          (handle collidingGeneralOnly (ContextMenu (mkPoint 400 300))))) =
    [ (1000%Z, "button"); (1001%Z, "input") ].
Proof. repeat split; vm_compute; reflexivity. Qed.

(** C10, the claim as written fails: a click on empty space selects the
    annotation it creates also when the display filter hides the
    manual-creation type.  With the general-only filter and the actionable
    manual type, the click at (200,200) adds an actionable annotation that
    the filter excludes and makes it the selected one. *)
Lemma C10_click_selects_the_hidden_annotation_it_adds :
  let st' := handleAll (clickAt (mkPoint 200 200) 50) addsHidden in
  exists a,
    a ∈ annotations st' /\
    passes (displayFilter st') a = false /\
    (a ∉ canvasAnnotations st') /\
    selectedAnnotationId addsHidden = None /\
    selectedAnnotationId st' = Some (id a).
Proof.
  exists (mkAnnotation 50 (mkPoint 200 200) "" "manual" actionable).
  split; [vm_compute; right; left | ]. split; [reflexivity | ].
  split; [ | split; reflexivity].
  vm_compute. intros H.
  apply elem_of_cons in H as [H | H]; [discriminate | by apply elem_of_nil in H].
Qed.

(** C10.  The canvas tests the pointer against the annotations that pass the
    display filter, last drawn first: a hit is an annotation that passes the
    filter, within the pick radius, with no annotation within the radius
    after it in the sorted, filtered list; it is never an annotation the
    filter excludes and never has the id of one.  Take a session of pointer
    events that starts with no drag in progress and in which the ids of the
    store and the clock values read by the releases are pairwise distinct.
    For every annotation [a] that the filter excludes and that is in the
    store at some point of the session: from then on [a] stays in the store
    as it is, its id is never the dragged id, it becomes the id pending
    deletion or the selected id by no later event; and at that point it is
    the selected id only if it was selected at the start of the session or
    [a] was created during the session, by the click that selects what it
    adds. *)
Theorem C10_hidden_annotations_out_of_reach
    (st : App) (evs1 evs2 : list PointerEvent) (a : Annotation) :
  draggingAnnotationId st = None ->
  NoDup (map id (annotations st) ++ clocks (evs1 ++ evs2)) ->
  let s1 := handleAll evs1 st in
  let s2 := handleAll evs2 s1 in
  a ∈ annotations s1 ->
  passes (displayFilter s1) a = false ->
  (forall pos b,
     getAnnotationAtPos (canvasAnnotations s1) pos = Some b ->
     b <> a /\ id b <> id a /\ passes (displayFilter s1) b = true /\
     exists pre post,
       filteredAnnotations (displayFilter s1) (sortedAnnotations (annotations s1))
         = pre ++ b :: post /\
       inPickRadius pos b = true /\
       Forall (fun c => inPickRadius pos c = false) post) /\
  a ∈ annotations s2 /\
  (forall b, id b = id a -> (b ∈ annotations s2 <-> b = a)) /\
  draggingAnnotationId s1 <> Some (id a) /\
  draggingAnnotationId s2 <> Some (id a) /\
  (annotationToDelete s2 = Some (id a) -> annotationToDelete s1 = Some (id a)) /\
  (selectedAnnotationId s2 = Some (id a) -> selectedAnnotationId s1 = Some (id a)) /\
  (selectedAnnotationId s1 = Some (id a) ->
   selectedAnnotationId st = Some (id a) \/ id a ∉ map id (annotations st)).
Proof.
  intros Hidle Hnd s1 s2 Hin Hhid.
  assert (Hwf0 : wellFormed st (evs1 ++ evs2)).
  { split; [exact Hnd | ]. intros d b E. by rewrite Hidle in E. }
  pose proof (wellFormed_trace evs1 st evs2 Hwf0) as [Hnd1 Hdrag1]. fold s1 in Hnd1, Hdrag1.
  pose proof Hnd1 as Hnd1'. apply NoDup_app in Hnd1' as (Hids1 & _ & _).
  assert (Honly : forall b, b ∈ annotations s1 -> id b = id a -> b = a).
  { intros b Hb E. by apply (NoDup_map_inj id (annotations s1) b a Hids1 Hb Hin E). }
  assert (Hall : forall b, b ∈ annotations s1 -> id b = id a ->
                   passes (displayFilter s1) b = false).
  { intros b Hb E. by rewrite (Honly b Hb E). }
  assert (Hd1 : draggingAnnotationId s1 <> Some (id a)).
  { intros E. pose proof (Hdrag1 (id a) a E Hin eq_refl). congruence. }
  assert (Hclock2 : Forall (fun ev => clockOf ev <> Some (id a)) evs2).
  { apply (clock_not_an_id _ _ _ Hnd1). by apply list_elem_of_fmap_2. }
  destruct (handleAll_keepsId (id a) (annotations s1) evs2 s1 Hall Hclock2)
    as (_ & [Hsame Hd2] & Hsel & Hdel); [by split | ].
  fold s2 in Hsame, Hd2, Hsel, Hdel.
  split.
  { intros pos b H. pose proof (hit_is_visible _ _ _ H) as [Hb Hvis].
    split; [intros ->; congruence | ].
    split; [by apply (hit_other_id s1 pos (id a) b Hall) | ].
    split; [exact Hvis | ]. by apply getAnnotationAtPos_last. }
  split; [by apply Hsame | ].
  split.
  { intros b E. rewrite (Hsame b E). split; [intros Hb; by apply Honly | by intros ->]. }
  split; [exact Hd1 | ]. split; [exact Hd2 | ]. split; [exact Hdel | ].
  split; [exact Hsel | ].
  intros Hs1.
  destruct (decide (id a ∈ map id (annotations st))) as [Hold | Hnew]; [left | by right].
  assert (Hall0 : forall b, b ∈ annotations st -> id b = id a ->
                    passes (displayFilter st) b = false).
  { intros b Hb E.
    destruct (handleAll_grows evs1 st) as (kept & added & Eann & Hkept & _).
    fold s1 in Eann.
    apply list_elem_of_lookup in Hb as [k Hk].
    destruct (Forall2_lookup_l _ _ _ _ _ Hkept Hk) as (b' & Hk' & (Ei & _ & _ & Et)).
    assert (Hb' : b' ∈ annotations s1).
    { rewrite Eann. apply elem_of_app. left. by eapply list_elem_of_lookup_2. }
    assert (Eb' : b' = a) by (apply Honly; [done | congruence]).
    rewrite <- (handleAll_displayFilter evs1 st). fold s1.
    rewrite <- (passes_by_type _ b' b Et). by rewrite Eb'. }
  assert (Hclock1 : Forall (fun ev => clockOf ev <> Some (id a)) evs1).
  { rewrite clocks_app, app_assoc in Hnd. apply NoDup_app in Hnd as (Hnd & _ & _).
    by apply (clock_not_an_id _ _ _ Hnd). }
  destruct (handleAll_keepsId (id a) (annotations st) evs1 st Hall0 Hclock1)
    as (_ & _ & Hsel0 & _); [split; [done | by rewrite Hidle] | ].
  by apply Hsel0.
Qed.

Lemma C10_hidden_annotations_out_of_reach_witness :
  let evs1 := clickAt (mkPoint 200 200) 50 in
  let evs2 := [ContextMenu (mkPoint 200 200); MouseDown 0 (mkPoint 200 200);
               MouseMove (mkPoint 210 210); MouseUp 0 (mkPoint 210 210) 51;
               MouseDown 0 (mkPoint 100 113); MouseUp 0 (mkPoint 100 113) 52] in
  let a := mkAnnotation 50 (mkPoint 200 200) "" "manual" actionable in
  inPickRadius (mkPoint 200 200) a = true /\
  a ∈ annotations (handleAll evs2 (handleAll evs1 addsHidden)) /\
  (annotationToDelete (handleAll evs2 (handleAll evs1 addsHidden)) = Some 50%Z ->
   None = Some 50%Z).
Proof.
  intros evs1 evs2 a. split; [vm_compute; reflexivity | ].
  assert (H1 : draggingAnnotationId addsHidden = None) by reflexivity.
  assert (H2 : NoDup (map id (annotations addsHidden) ++ clocks (evs1 ++ evs2))).
  { vm_compute.
    repeat (constructor; [intros N;
      repeat (apply elem_of_cons in N as [N | N]; [discriminate | ]);
      by apply elem_of_nil in N | ]).
    constructor. }
  assert (H3 : a ∈ annotations (handleAll evs1 addsHidden)) by (vm_compute; right; left).
  assert (H4 : passes (displayFilter (handleAll evs1 addsHidden)) a = false) by reflexivity.
  destruct (C10_hidden_annotations_out_of_reach addsHidden evs1 evs2 a H1 H2 H3 H4)
    as (_ & Hin & _ & _ & _ & Hdel & _).
  split; [exact Hin | exact Hdel].
Defined.

(** * Further properties of the code *)

(** X1.  Sorting an array that is already in display order returns it as it
    is, so sorting twice is sorting once. *)
Theorem X1_sorting_is_idempotent (annotations : list Annotation) :
  (StronglySorted before annotations -> sortedAnnotations annotations = annotations) /\
  sortedAnnotations (sortedAnnotations annotations) = sortedAnnotations annotations.
Proof.
  split; [apply sortedAnnotations_fixed | ].
  apply sortedAnnotations_fixed, sortedAnnotations_sorted.
Qed.

Lemma X1_sorting_is_idempotent_witness :
  sortedAnnotations [marker7; hidden8] = [marker7; hidden8].
Proof.
  apply (proj1 (X1_sorting_is_idempotent [marker7; hidden8])).
  repeat constructor; vm_compute; discriminate.
Defined.

(** X2.  The filtered list handed to the canvas and to the sidebar is itself
    in display order, and filtering the sorted list gives the same list as
    sorting the annotations that pass the filter. *)
Theorem X2_filtered_view_is_sorted
    (annotations : list Annotation) (displayFilter : DisplayFilter) :
  StronglySorted before (visibleAnnotations annotations displayFilter) /\
  visibleAnnotations annotations displayFilter =
    sortedAnnotations (List.filter (passes displayFilter) annotations) /\
  visibleAnnotations annotations displayFilter ≡ₚ
    List.filter (passes displayFilter) annotations.
Proof.
  unfold visibleAnnotations. rewrite filteredAnnotations_passes.
  split; [apply StronglySorted_filter, sortedAnnotations_sorted | ].
  rewrite sortedAnnotations_filter. split; [done | apply sortedAnnotations_perm].
Qed.

(** X3.  When the ids of the annotations are pairwise distinct, the markers
    of a one-type view carry, in display order, the labels of the counter
    values 1, 2, ..., n with no gap, where n is the number of annotations of
    that type: ["1"], ["2"], ... in the general-only view and ["A1"],
    ["A2"], ... in the actionable-only view. *)
Theorem X3_labels_are_consecutive
    (annotations : list Annotation) (t : AnnotationType) :
  NoDup (map id annotations) ->
  map snd (renderedLabels annotations (only t)) =
  map (labelOf t) (seq 1 (countType t annotations)).
Proof.
  intros Hnd. unfold renderedLabels, visibleAnnotations.
  rewrite map_map. simpl.
  rewrite <- (countType_perm t _ _ (sortedAnnotations_perm annotations)).
  apply (labels_of_prefix t _ _ []); [ | by rewrite app_nil_r].
  by rewrite (sortedAnnotations_perm annotations).
Qed.

Lemma X3_labels_are_consecutive_witness :
  map snd (renderedLabels ex1 (only general)) = ["1"; "2"].
Proof.
  apply (X3_labels_are_consecutive ex1 general).
  repeat (constructor; [vm_compute; intros H;
    repeat (apply elem_of_cons in H as [H | H]; [discriminate | ]);
    by apply elem_of_nil in H | ]).
  constructor.
Defined.

(** X4.  Typing in the description box changes the description of the
    annotations that carry the id of the selected annotation and nothing
    else: the store keeps its length, every annotation keeps its id, point,
    element type and annotation type, annotations with another id are
    unchanged, and the numbering, the display order of the ids and the
    selection are the same as before. *)
Theorem X4_editing_a_description_keeps_order_and_labels (text : string) (st : App) :
  let st' := editDescription text st in
  map id (annotations st') = map id (annotations st) /\
  map point (annotations st') = map point (annotations st) /\
  map elementType (annotations st') = map elementType (annotations st) /\
  map annotationType (annotations st') = map annotationType (annotations st) /\
  displayNumbers (sortedAnnotations (annotations st')) =
    displayNumbers (sortedAnnotations (annotations st)) /\
  map id (sortedAnnotations (annotations st')) =
    map id (sortedAnnotations (annotations st)) /\
  selectedAnnotationId st' = selectedAnnotationId st /\
  (forall selected, selectedAnnotation st = Some selected ->
     forall k a, annotations st !! k = Some a ->
       annotations st' !! k =
         Some (if bool_decide (id a = id selected)
               then mkAnnotation (id a) (point a) text (elementType a) (annotationType a)
               else a)).
Proof.
  intros st'. unfold st', editDescription.
  destruct (selectedAnnotation st) as [selected | ]; [ | by repeat split].
  set (updates := Partial.mk None None (Some text) None None).
  assert (Htext : textOnly updates) by done.
  destruct (updateAnnotation_textOnly_views (id selected) updates st Htext) as [Es En].
  assert (Hfield : forall {B} (f : Annotation -> B),
    (forall a, f (spread a updates) = f a) ->
    map f (annotations (updateAnnotation (id selected) updates st)) =
    map f (annotations st)).
  { intros B f Hf. simpl. rewrite map_map. apply map_ext.
    intros a. by case_bool_decide. }
  split; [by apply Hfield | ]. split; [by apply Hfield | ].
  split; [by apply Hfield | ]. split; [by apply Hfield | ].
  split; [exact En | ]. split.
  { rewrite Es, map_map. apply map_ext. intros a. by case_bool_decide. }
  split; [done | ].
  intros ? [= <-] k a Hk. by rewrite (updateAnnotation_lookup _ _ _ _ _ Hk).
Qed.

Lemma X4_editing_a_description_keeps_order_and_labels_witness :
  annotations (editDescription "Save" (setSelectedAnnotationId (Some 7%Z) oneMarker)) !! 0%nat =
  Some (mkAnnotation 7 (mkPoint 100 100) "Save" "manual" general).
Proof.
  destruct (X4_editing_a_description_keeps_order_and_labels "Save"
              (setSelectedAnnotationId (Some 7%Z) oneMarker)) as (_ & _ & _ & _ & _ & _ & _ & H).
  exact (H marker7 eq_refl 0%nat marker7 eq_refl).
Defined.

(** X5.  The sidebar shows the description box for the first annotation of
    the filtered list whose id is the selected id: the annotation it edits is
    in the store, passes the filter and has the selected id; and there is no
    box exactly when nothing is selected or every annotation with the
    selected id is hidden by the filter. *)
Theorem X5_edit_box_needs_a_visible_selection (st : App) :
  (forall a, selectedAnnotation st = Some a ->
     a ∈ annotations st /\ passes (displayFilter st) a = true /\
     selectedAnnotationId st = Some (id a)) /\
  (selectedAnnotation st = None <->
   forall a, a ∈ annotations st -> passes (displayFilter st) a = true ->
     selectedAnnotationId st <> Some (id a)).
Proof.
  unfold selectedAnnotation. split.
  - intros a H. apply find_some in H as [Hin Hid].
    apply list_elem_of_In, canvasAnnotations_elem in Hin as [Hin Hvis].
    apply bool_decide_eq_true in Hid. done.
  - rewrite find_none_iff, Forall_forall. split.
    + intros H a Hin Hvis E. specialize (H a).
      rewrite bool_decide_eq_false in H. apply H; [ | done].
      by apply canvasAnnotations_elem.
    + intros H a Hc. apply canvasAnnotations_elem in Hc as [Hin Hvis].
      apply bool_decide_eq_false. intros E. by apply (H a Hin Hvis).
Qed.

Lemma X5_edit_box_needs_a_visible_selection_witness :
  selectedAnnotation (setSelectedAnnotationId (Some 8%Z) oneHidden) = None.
Proof.
  apply (proj2 (X5_edit_box_needs_a_visible_selection
                  (setSelectedAnnotationId (Some 8%Z) oneHidden))).
  intros a Ha Hvis. apply elem_of_cons in Ha as [-> | Ha]; [discriminate | ].
  apply elem_of_cons in Ha as [-> | Ha]; [discriminate | ].
  by apply elem_of_nil in Ha.
Defined.

(** X6.  Confirming a deletion removes from the store every annotation with
    the pending id and nothing else, the remaining annotations keeping their
    order; it clears the pending request; the selection is cleared if it was
    the deleted id and kept otherwise, so the selected id is never the
    deleted one.  With no pending request the confirmation does nothing. *)
Theorem X6_confirmed_delete_removes_the_id (st : App) :
  let st' := handleConfirmDelete st in
  annotationToDelete st' = None /\
  (annotationToDelete st = None -> st' = st) /\
  (forall i, annotationToDelete st = Some i ->
     annotations st' =
       List.filter (fun anno => negb (bool_decide (id anno = i))) (annotations st) /\
     (forall a, a ∈ annotations st' <-> a ∈ annotations st /\ id a <> i) /\
     selectedAnnotationId st' <> Some i /\
     (selectedAnnotationId st = Some i -> selectedAnnotationId st' = None) /\
     (selectedAnnotationId st <> Some i ->
      selectedAnnotationId st' = selectedAnnotationId st)).
Proof.
  intros st'. unfold st', handleConfirmDelete.
  destruct (annotationToDelete st) as [i | ] eqn:E.
  - split; [done | ]. split; [done | ]. intros ? [= <-].
    change (annotations (setAnnotationToDelete None (deleteAnnotation i st)))
      with (annotations (deleteAnnotation i st)).
    change (selectedAnnotationId (setAnnotationToDelete None (deleteAnnotation i st)))
      with (selectedAnnotationId (deleteAnnotation i st)).
    rewrite deleteAnnotation_selected.
    split; [apply deleteAnnotation_annotations | ].
    split; [apply deleteAnnotation_elem | ].
    case_bool_decide as Hs; split; try done; split; try done; intros; congruence.
  - split; [done | ]. split; [done | ]. intros i [=].
Qed.

Lemma X6_confirmed_delete_removes_the_id_witness :
  let st := setSelectedAnnotationId (Some 8%Z)
              (handleContextMenu (mkPoint 100 100)
                 (mkApp [marker7; hidden8] all general (Some 7%Z) None None None)) in
  annotations (handleConfirmDelete st) = [hidden8] /\
  selectedAnnotationId (handleConfirmDelete st) = Some 8%Z.
Proof.
  intros st.
  destruct (X6_confirmed_delete_removes_the_id st) as (_ & _ & H).
  destruct (H 7%Z eq_refl) as (Ha & _ & _ & _ & Hs).
  split; [exact Ha | ]. apply Hs. discriminate.
Defined.

(** X7.  A right click never changes the annotations, the selection or the
    drag state: it only records a pending deletion, and only for the id of a
    visible annotation within the pick radius of the cursor.  Cancelling the
    request right away gives back the state before the right click. *)
Theorem X7_delete_request_then_cancel (st : App) (pos : Point) :
  let st' := handleContextMenu pos st in
  annotations st' = annotations st /\
  selectedAnnotationId st' = selectedAnnotationId st /\
  draggingAnnotationId st' = draggingAnnotationId st /\
  dragStartPos st' = dragStartPos st /\
  (annotationToDelete st' = annotationToDelete st \/
   exists a, annotationToDelete st' = Some (id a) /\
     a ∈ annotations st /\ passes (displayFilter st) a = true /\
     inPickRadius pos a = true) /\
  (annotationToDelete st = None -> handleCancelDelete st' = st).
Proof.
  intros st'. unfold st', handleContextMenu.
  destruct (getAnnotationAtPos (canvasAnnotations st) pos) as [a | ] eqn:E.
  - repeat (split; [done | ]). split.
    + right. exists a. split; [done | ].
      destruct (hit_is_visible _ _ _ E) as [Hin Hvis].
      apply getAnnotationAtPos_last in E as (_ & _ & _ & Hr & _). done.
    + intros H. destruct st. simpl in *. by subst.
  - repeat (split; [done | ]). split; [by left | ].
    intros H. destruct st. simpl in *. by subst.
Qed.

Lemma X7_delete_request_then_cancel_witness :
  handleCancelDelete (handleContextMenu (mkPoint 105 95) oneMarker) = oneMarker.
Proof.
  apply (X7_delete_request_then_cancel oneMarker (mkPoint 105 95)). reflexivity.
Defined.

(** X8.  When the pointer leaves the canvas the controller forgets the press
    and the dragged id but keeps the annotations as the last move left them
    and keeps the selection.  From then on, and from any idle state, no
    sequence of moves, releases, right clicks, leaves and presses of other
    buttons changes the annotations or the selection: only a gesture that
    starts with a press of the primary button does. *)
Theorem X8_nothing_changes_without_a_press (st : App) (evs : list PointerEvent) :
  Forall (fun ev => primaryPress ev = false) evs ->
  (draggingAnnotationId st = None -> dragStartPos st = None ->
   annotations (handleAll evs st) = annotations st /\
   selectedAnnotationId (handleAll evs st) = selectedAnnotationId st) /\
  annotations (handleAll evs (handleMouseLeave st)) = annotations st /\
  selectedAnnotationId (handleAll evs (handleMouseLeave st)) = selectedAnnotationId st /\
  draggingAnnotationId (handleAll evs (handleMouseLeave st)) = None /\
  dragStartPos (handleAll evs (handleMouseLeave st)) = None.
Proof.
  intros Hevs. split.
  - intros Hd Hs.
    destruct (handleAll_without_press evs st Hd Hs Hevs) as (Ha & Hsel & _). done.
  - by destruct (handleAll_without_press evs (handleMouseLeave st) eq_refl eq_refl Hevs)
      as (Ha & Hsel & Hd & Hs).
Qed.

Lemma X8_nothing_changes_without_a_press_witness :
  let evs := [MouseMove (mkPoint 300 300); MouseUp 0 (mkPoint 300 300) 50;
              MouseDown 2 (mkPoint 40 40); ContextMenu (mkPoint 100 100);
              MouseUp 2 (mkPoint 40 40) 51] in
  annotations
    (handleAll evs (handleMouseLeave
       (handleAll [MouseDown 0 (mkPoint 100 100); MouseMove (mkPoint 120 130)] oneMarker)))
  = [mkAnnotation 7 (mkPoint 120 130) "" "manual" general].
Proof.
  intros evs.
  refine (proj1 (proj2 (X8_nothing_changes_without_a_press
    (handleAll [MouseDown 0 (mkPoint 100 100); MouseMove (mkPoint 120 130)] oneMarker)
    evs _))).
  repeat (constructor; [reflexivity | ]). constructor.
Defined.

(** X9.  The hit test returns nothing exactly when no annotation of the list
    is within the pick radius, and it returns [b] exactly when [b] is in the
    list within the radius and no annotation after [b] in the list is: of
    overlapping markers the one drawn last wins.  The radius is inclusive:
    within means squared distance at most 14 * 14. *)
Theorem X9_hit_test_finds_the_topmost_marker
    (l : list Annotation) (pos : Point) :
  (getAnnotationAtPos l pos = None <->
   Forall (fun a => inPickRadius pos a = false) l) /\
  (forall b, getAnnotationAtPos l pos = Some b <->
     exists pre post,
       l = pre ++ b :: post /\ inPickRadius pos b = true /\
       Forall (fun c => inPickRadius pos c = false) post) /\
  (forall a, inPickRadius pos a = true <->
     squaredDistance pos (point a) <= 14 * 14).
Proof.
  split; [apply find_rev_none_iff | ].
  split; [intros b; apply find_rev_last_iff | ].
  intros a. apply Qle_bool_iff.
Qed.

Lemma X9_hit_test_finds_the_topmost_marker_witness :
  getAnnotationAtPos [marker7; hidden8] (mkPoint 150 150) = None.
Proof.
  apply (proj1 (X9_hit_test_finds_the_topmost_marker [marker7; hidden8] (mkPoint 150 150))).
  constructor; [reflexivity | ]. constructor; [reflexivity | constructor].
Defined.

(** X10.  Adding an annotation with a clock value that no annotation of the
    store has as its id, then deleting that id, gives back the store as it
    was, with nothing selected.  When an annotation of the store already has
    that id, the deletion takes it away too and the store ends up shorter
    than it was. *)
Theorem X10_add_then_delete (st : App) (now : Z) (pt : Point) :
  let st' := deleteAnnotation now (addAnnotation now pt st) in
  selectedAnnotationId st' = None /\
  (now ∉ map id (annotations st) -> annotations st' = annotations st) /\
  (now ∈ map id (annotations st) ->
   (length (annotations st') < length (annotations st))%nat).
Proof.
  intros st'. unfold st'. rewrite deleteAnnotation_selected, deleteAnnotation_annotations.
  split; [simpl; by rewrite bool_decide_eq_true_2 | ].
  simpl. rewrite List.filter_app. simpl.
  rewrite (bool_decide_eq_true_2 (now = now)) by done. simpl. rewrite app_nil_r.
  split.
  - intros Hfresh. apply filter_all_true, Forall_forall. intros a Ha.
    apply negb_true_iff, bool_decide_eq_false. intros E. apply Hfresh.
    apply list_elem_of_fmap. by exists a.
  - intros Hin. apply list_elem_of_fmap in Hin as (a & E & Ha).
    apply (filter_length_lt _ _ a Ha).
    apply negb_false_iff, bool_decide_eq_true. done.
Qed.

Lemma X10_add_then_delete_witness :
  annotations (deleteAnnotation 50 (addAnnotation 50 (mkPoint 3 4) oneMarker)) = [marker7] /\
  (length (annotations (deleteAnnotation 7 (addAnnotation 7 (mkPoint 3 4) oneMarker))) < 1)%nat.
Proof.
  split.
  - apply (X10_add_then_delete oneMarker 50 (mkPoint 3 4)).
    vm_compute. intros H.
    apply elem_of_cons in H as [H | H]; [discriminate | by apply elem_of_nil in H].
  - apply (X10_add_then_delete oneMarker 7 (mkPoint 3 4)). vm_compute. left.
Defined.

(** X11.  No sequence of pointer events on the canvas deletes or reorders
    annotations or changes an id, a description, an element type or an
    annotation type: at the end the store holds the annotations it started
    with, in the same order and with at most their points changed, followed
    by the annotations added by clicks, each with element type ["manual"],
    an empty description and the manual-creation type.  The display filter
    and the manual-creation type are not changed either. *)
Theorem X11_pointer_events_only_move_and_append
    (evs : list PointerEvent) (st : App) :
  let st' := handleAll evs st in
  displayFilter st' = displayFilter st /\
  manualAnnotationType st' = manualAnnotationType st /\
  (length (annotations st) <= length (annotations st'))%nat /\
  exists kept added,
    annotations st' = kept ++ added /\
    Forall2 sameButPoint (annotations st) kept /\
    Forall (fun a => elementType a = "manual" /\ description a = "" /\
                     annotationType a = manualAnnotationType st) added.
Proof.
  assert (H : forall evs st,
    displayFilter (handleAll evs st) = displayFilter st /\
    manualAnnotationType (handleAll evs st) = manualAnnotationType st /\
    grows (manualAnnotationType st) (annotations st) (annotations (handleAll evs st))).
  { clear. induction evs as [| ev evs IH]; intros st.
    - split; [done | ]. split; [done | apply grows_refl].
    - destruct (handle_annotations st ev) as (Hm & Hf & _).
      destruct (IH (handle st ev)) as (IHf & IHm & IHg). simpl.
      split; [congruence | ]. split; [congruence | ].
      eapply grows_trans; [apply handle_grows | ]. by rewrite <- Hm. }
  intros st'. destruct (H evs st) as (Hf & Hm & (kept & added & E & Hk & Ha)).
  split; [done | ]. split; [done | ]. split; [ | by exists kept, added].
  unfold st'. rewrite E, length_app, (Forall2_length _ _ _ Hk). lia.
Qed.

(** X12.  Every point written by a pointer event has integer coordinates:
    if all points of the store are integers (as after a detection on integer
    boxes), they still are after any sequence of pointer events, whatever
    fractional cursor positions the events carry. *)
Theorem X12_pointer_events_keep_integer_points
    (evs : list PointerEvent) (st : App) :
  Forall integerPoint (annotations st) ->
  Forall integerPoint (annotations (handleAll evs st)).
Proof.
  revert st. induction evs as [| ev evs IH]; intros st H; [done | ].
  simpl. by apply IH, handle_integerPoints.
Qed.

Lemma X12_pointer_events_keep_integer_points_witness :
  Forall integerPoint
    (annotations
       (handleAll [MouseDown 0 (mkPoint (1001 # 10) (999 # 10));
                   MouseMove (mkPoint (7 # 3) (-5 # 2));
                   MouseUp 0 (mkPoint (7 # 3) (-5 # 2)) 50;
                   MouseDown 0 (mkPoint (601 # 2) 400);
                   MouseUp 0 (mkPoint (601 # 2) (4001 # 10)) 51] oneMarker)).
Proof.
  apply X12_pointer_events_keep_integer_points.
  constructor; [ | constructor]. split; [by exists 100%Z | by exists 100%Z].
Defined.

(** X13.  Within one detection batch the ids increase strictly along the
    output, hence are pairwise distinct, whenever the clock does not run
    backwards between two callbacks: the array index added to the clock
    value separates the boxes even when they are all handled within one
    millisecond. *)
Theorem X13_batch_ids_increase
    (image : Image) (now : nat -> Z) (detectedObjects : list DetectedObject.t) :
  (forall i j, (i <= j)%nat -> (now i <= now j)%Z) ->
  StronglySorted (fun a b => (id a < id b)%Z)
    (detectAnnotations image now detectedObjects) /\
  NoDup (map id (detectAnnotations image now detectedObjects)).
Proof.
  intros Hmono. split; [ | by apply detectAnnotations_ids_distinct].
  apply (detectFrom_ids_increasing image now Hmono detectedObjects 0).
Qed.

Lemma X13_batch_ids_increase_witness :
  NoDup (map id (detectAnnotations (mkImage 800 600) (fun _ => 1000%Z) batch3)).
Proof.
  apply X13_batch_ids_increase. intros i j _. reflexivity.
Defined.



(** X15.  A new manual annotation is appended to the store and selected.  If
    the display filter hides its type, the list handed to the canvas and to
    the sidebar is the same as before the addition: the new marker is not
    drawn and a hit test at its position gives what it gave before.  If the
    filter shows its type, the new annotation is in that list and a hit test
    at its point finds a marker within the radius. *)
Theorem X15_added_annotation_and_the_filter (st : App) (now : Z) (pt : Point) :
  let st' := addAnnotation now pt st in
  let new := manualAnnotation now pt st in
  annotations st' = annotations st ++ [new] /\
  selectedAnnotationId st' = Some now /\
  (passes (displayFilter st) new = false ->
   canvasAnnotations st' = canvasAnnotations st /\
   forall pos, getAnnotationAtPos (canvasAnnotations st') pos =
               getAnnotationAtPos (canvasAnnotations st) pos) /\
  (passes (displayFilter st) new = true ->
   new ∈ canvasAnnotations st' /\
   exists b, getAnnotationAtPos (canvasAnnotations st') pt = Some b /\
             inPickRadius pt b = true).
Proof.
  intros st' new. split; [done | ]. split; [done | ]. split.
  - intros H. pose proof (canvasAnnotations_add_hidden now pt st H) as E.
    split; [exact E | ]. intros pos. unfold st'. by rewrite E.
  - intros H.
    assert (Hin : new ∈ canvasAnnotations st').
    { apply canvasAnnotations_elem. split; [ | done].
      apply elem_of_app. right. left. }
    split; [exact Hin | ].
    assert (Hr : inPickRadius pt new = true).
    { apply Qle_bool_iff. simpl. rewrite squaredDistance_self. discriminate. }
    destruct (getAnnotationAtPos (canvasAnnotations st') pt) as [b | ] eqn:E.
    + exists b. split; [done | ].
      apply getAnnotationAtPos_last in E as (_ & _ & _ & Hb & _). done.
    + apply find_rev_none_iff in E. rewrite Forall_forall in E.
      specialize (E new Hin). simpl in E. congruence.
Qed.

Lemma X15_added_annotation_and_the_filter_witness :
  canvasAnnotations (addAnnotation 50 (mkPoint 200 200)
     (mkApp [marker7] (only general) actionable None None None None)) = [marker7] /\
  exists b, getAnnotationAtPos
     (canvasAnnotations (addAnnotation 50 (mkPoint 200 200) oneMarker))
     (mkPoint 200 200) = Some b /\ inPickRadius (mkPoint 200 200) b = true.
Proof.
  split.
  - apply (X15_added_annotation_and_the_filter
             (mkApp [marker7] (only general) actionable None None None None)
             50 (mkPoint 200 200)). reflexivity.
  - apply (X15_added_annotation_and_the_filter oneMarker 50 (mkPoint 200 200)).
    reflexivity.
Defined.

(** X16.  In exact arithmetic, for an image and a container with positive
    sides, the displayed size computed by [resizeCanvas] fits in the
    container, touches it in width or in height, and keeps the aspect ratio
    of the image; the scale is the same in both directions and is the
    smaller of [cw / iw] and [ch / ih]. *)
Theorem X16_canvas_fits_the_container (iw ih cw ch : Q) :
  0 < iw -> 0 < ih -> 0 < cw -> 0 < ch ->
  let newWidth := fst (fitSize iw ih cw ch) in
  let newHeight := snd (fitSize iw ih cw ch) in
  let scale := fitScale iw ih cw ch in
  0 < newWidth <= cw /\
  0 < newHeight <= ch /\
  (newWidth == cw \/ newHeight == ch) /\
  newWidth * ih == newHeight * iw /\
  newWidth == iw * scale /\
  newHeight == ih * scale /\
  scale == Qmin (cw / iw) (ch / ih).
Proof.
  intros Hiw Hih Hcw Hch newWidth newHeight scale.
  assert (Ni : ~ iw == 0) by lra. assert (Nh : ~ ih == 0) by lra.
  assert (Es : scale == newWidth / iw) by reflexivity.
  assert (P1 : 0 < cw * ih / iw).
  { apply Qlt_shift_div_l; [done | ]. nra. }
  assert (P2 : 0 < ch * iw / ih).
  { apply Qlt_shift_div_l; [done | ]. nra. }
  destruct (fitSize_cases iw ih cw ch Hiw Hih Hcw Hch) as [(H & Ew & Eh) | (H & Ew & Eh)];
    fold newWidth in Ew; fold newHeight in Eh; rewrite Es, Ew, Eh.
  - assert (L : cw * ih / iw <= ch).
    { apply Qle_shift_div_r; [done | ]. lra. }
    split; [lra | ]. split; [lra | ]. split; [by left | ].
    split; [field; lra | ]. split; [field; lra | ]. split; [field; lra | ].
    symmetry. apply Q.min_l.
    apply Qle_shift_div_l; [done | ].
    assert (E : cw / iw * ih == cw * ih / iw) by (field; lra). lra.
  - assert (L : ch * iw / ih <= cw).
    { apply Qle_shift_div_r; [done | ]. lra. }
    split; [lra | ]. split; [lra | ]. split; [by right | ].
    split; [field; lra | ]. split; [field; lra | ]. split; [field; lra | ].
    assert (E : ch * iw / ih / iw == ch / ih) by (field; lra).
    rewrite E. symmetry. apply Q.min_r.
    apply Qle_shift_div_l; [done | ].
    assert (E' : ch / ih * iw == ch * iw / ih) by (field; lra). lra.
Qed.

Lemma X16_canvas_fits_the_container_witness :
  fst (fitSize 1000 800 500 600) == 500 /\ snd (fitSize 1000 800 500 600) <= 600.
Proof.
  destruct (X16_canvas_fits_the_container 1000 800 500 600) as (_ & [_ H] & _).
  - reflexivity.
  - reflexivity.
  - reflexivity.
  - reflexivity.
  - split; [vm_compute; reflexivity | exact H].
Defined.

(** X17.  In exact arithmetic [getCanvasCoordinates] undoes the scaling of
    the display: the screen position [left + px * scale], [top + py * scale]
    of an image point maps back to [(px, py)] for every non-zero scale.
    With the scale of [resizeCanvas] the corners of the displayed rectangle
    map to [(0, 0)] and [(iw, ih)], the corners of the image. *)
Theorem X17_screen_to_image_coordinates (left top scale px py : Q) :
  ~ scale == 0 ->
  x (getCanvasCoordinates (left + px * scale) (top + py * scale) left top scale) == px /\
  y (getCanvasCoordinates (left + px * scale) (top + py * scale) left top scale) == py /\
  (forall iw ih cw ch,
     0 < iw -> 0 < ih -> 0 < cw -> 0 < ch ->
     let s := fitScale iw ih cw ch in
     let w := fst (fitSize iw ih cw ch) in
     let h := snd (fitSize iw ih cw ch) in
     x (getCanvasCoordinates left top left top s) == 0 /\
     y (getCanvasCoordinates left top left top s) == 0 /\
     x (getCanvasCoordinates (left + w) (top + h) left top s) == iw /\
     y (getCanvasCoordinates (left + w) (top + h) left top s) == ih).
Proof.
  intros Hs. split; [simpl; field; done | ]. split; [simpl; field; done | ].
  intros iw ih cw ch Hiw Hih Hcw Hch s w h.
  assert (Ni : ~ iw == 0) by lra. assert (Nh : ~ ih == 0) by lra.
  assert (Nc : ~ cw == 0) by lra. assert (Nd : ~ ch == 0) by lra.
  assert (Es : s == w / iw) by reflexivity.
  simpl.
  destruct (fitSize_cases iw ih cw ch Hiw Hih Hcw Hch) as [(H & Ew & Eh) | (H & Ew & Eh)];
    fold w in Ew; fold h in Eh; rewrite Es, Ew, Eh;
    repeat split; field; repeat split; lra.
Qed.

Lemma X17_screen_to_image_coordinates_witness :
  x (getCanvasCoordinates (20 + 300 * (1 # 2)) (10 + 400 * (1 # 2)) 20 10 (1 # 2)) == 300.
Proof.
  assert (H : ~ (1 # 2) == 0) by discriminate.
  destruct (X17_screen_to_image_coordinates 20 10 (1 # 2) 300 400 H) as (H1 & _).
  exact H1.
Defined.

(** X18.  The only click on the canvas that toggles a selection: with the
    controller idle, a press that misses every visible marker followed by a
    release less than 5 pixels away that hits the marker [a] selects [a] if
    its id was not the selected id and clears the selection if it was; the
    annotations are unchanged and the controller is idle again. *)
Theorem X18_release_on_a_marker_toggles_after_a_missed_press
    (st : App) (p q : Point) (now : Z) (a : Annotation) :
  draggingAnnotationId st = None ->
  getAnnotationAtPos (canvasAnnotations st) p = None ->
  squaredDistance q p < 5 * 5 ->
  getAnnotationAtPos (canvasAnnotations st) q = Some a ->
  let st' := handleMouseUp 0 q now (handleMouseDown 0 p st) in
  annotations st' = annotations st /\
  (selectedAnnotationId st = Some (id a) -> selectedAnnotationId st' = None) /\
  (selectedAnnotationId st <> Some (id a) -> selectedAnnotationId st' = Some (id a)) /\
  draggingAnnotationId st' = None /\ dragStartPos st' = None.
Proof.
  intros Hidle Hp Hd Hq st'.
  destruct (handleMouseUp_toggle p q now st a Hidle Hp Hd Hq) as [Ha Hs].
  fold st' in Ha, Hs. split; [exact Ha | ]. rewrite Hs.
  split; [intros E; by rewrite bool_decide_eq_true_2 | ].
  split; [intros E; by rewrite bool_decide_eq_false_2 | ].
  apply handleMouseUp_idle.
Qed.

Lemma X18_release_on_a_marker_toggles_after_a_missed_press_witness :
  selectedAnnotationId
    (handleMouseUp 0 (mkPoint 100 113) 50 (handleMouseDown 0 (mkPoint 100 115) oneMarker))
  = Some 7%Z.
Proof.
  refine (proj1 (proj2 (proj2 (X18_release_on_a_marker_toggles_after_a_missed_press
            oneMarker (mkPoint 100 115) (mkPoint 100 113) 50 marker7 _ _ _ _))) _).
  - reflexivity.
  - vm_compute. reflexivity.
  - vm_compute. reflexivity.
  - vm_compute. reflexivity.
  - discriminate.
Defined.

(** X19.  Clicking in the sidebar the item of a visible annotation that is
    not the selected one, then typing in the description box, sets the
    description of the annotations with that id to the typed text and leaves
    every other annotation and every other field as it was. *)
Theorem X19_select_in_sidebar_then_edit
    (st : App) (a : Annotation) (text : string) :
  a ∈ canvasAnnotations st ->
  selectedAnnotationId st <> Some (id a) ->
  let st' := editDescription text (sidebarItemClick a st) in
  selectedAnnotationId st' = Some (id a) /\
  length (annotations st') = length (annotations st) /\
  forall k b, annotations st !! k = Some b ->
    annotations st' !! k =
      Some (if bool_decide (id b = id a)
            then mkAnnotation (id b) (point b) text (elementType b) (annotationType b)
            else b).
Proof.
  intros Hin Hsel st'.
  destruct (selectedAnnotation_after_click a st Hin Hsel) as (b & Hb & Eb).
  unfold st', editDescription. rewrite Hb, Eb.
  split; [simpl; by rewrite bool_decide_eq_false_2 by congruence | ].
  split; [simpl; by rewrite length_map | ].
  intros k c Hk.
  rewrite (updateAnnotation_lookup (id a) _ (sidebarItemClick a st) k c); [done | ].
  exact Hk.
Qed.

Lemma X19_select_in_sidebar_then_edit_witness :
  annotations (editDescription "Save" (sidebarItemClick marker7 oneMarker)) !! 0%nat =
  Some (mkAnnotation 7 (mkPoint 100 100) "Save" "manual" general).
Proof.
  assert (H1 : marker7 ∈ canvasAnnotations oneMarker) by (vm_compute; left).
  assert (H2 : selectedAnnotationId oneMarker <> Some (id marker7)) by discriminate.
  destruct (X19_select_in_sidebar_then_edit oneMarker marker7 "Save" H1 H2) as (_ & _ & H).
  exact (H 0%nat marker7 eq_refl).
Defined.

(** X20.  The classification of a detected box ignores the case of its
    element type: two accepted boxes whose element types are equal in lower
    case get the same annotation type, while each annotation keeps the
    element type as the response spelled it (or ["other"] for an empty
    one). *)
Theorem X20_classification_ignores_case
    (image : Image) (now1 now2 : Z) (obj1 obj2 : DetectedObject.t)
    (index1 index2 : nat) (a1 a2 : Annotation) :
  detectCallback image now1 obj1 index1 = Some a1 ->
  detectCallback image now2 obj2 index2 = Some a2 ->
  toLowerCase (DetectedObject.elementType obj1) =
    toLowerCase (DetectedObject.elementType obj2) ->
  annotationType a1 = annotationType a2 /\
  toLowerCase (elementType a1) = toLowerCase (elementType a2).
Proof.
  intros H1 H2 E.
  pose proof (detectCallback_type _ _ _ _ _ H1) as T1.
  pose proof (detectCallback_type _ _ _ _ _ H2) as T2.
  apply detectCallback_Some in H1 as (_ & _ & _ & _ & _ & _ & Het1 & _).
  apply detectCallback_Some in H2 as (_ & _ & _ & _ & _ & _ & Het2 & _).
  assert (L : toLowerCase (elementType a1) = toLowerCase (elementType a2)).
  { rewrite Het1, Het2.
    case_bool_decide as B1; case_bool_decide as B2; try done;
      rewrite ?B1, ?B2 in E; simpl in E;
      first [apply toLowerCase_empty in E | symmetry in E; apply toLowerCase_empty in E];
      done. }
  split; [ | exact L]. rewrite T1, T2. rewrite <- Het1, <- Het2. by rewrite L.
Qed.

Lemma X20_classification_ignores_case_witness :
  (annotationType <$> detectCallback (mkImage 800 600) 0 (box 10 10 50 50 "" "TAB") 0) =
  (annotationType <$> detectCallback (mkImage 800 600) 0 (box 10 10 50 50 "" "Tab") 1).
Proof.
  destruct (detectCallback (mkImage 800 600) 0 (box 10 10 50 50 "" "TAB") 0) as [a1 | ] eqn:E1;
    [ | vm_compute in E1; discriminate].
  destruct (detectCallback (mkImage 800 600) 0 (box 10 10 50 50 "" "Tab") 1) as [a2 | ] eqn:E2;
    [ | vm_compute in E2; discriminate].
  simpl. f_equal.
  apply (X20_classification_ignores_case _ _ _ _ _ _ _ _ _ E1 E2). reflexivity.
Defined.

(** X21.  The two one-type views split the unfiltered view: every annotation
    shown under [all] is shown in exactly one of the general-only and the
    actionable-only views, and the sizes of the two views add up to the
    number of annotations. *)
Theorem X21_type_views_partition
    (annotations : list Annotation) (a : Annotation) :
  (a ∈ visibleAnnotations annotations all <-> a ∈ annotations) /\
  (a ∈ visibleAnnotations annotations all <->
   a ∈ visibleAnnotations annotations (only general) \/
   a ∈ visibleAnnotations annotations (only actionable)) /\
  ~ (a ∈ visibleAnnotations annotations (only general) /\
     a ∈ visibleAnnotations annotations (only actionable)) /\
  (length (visibleAnnotations annotations (only general)) +
   length (visibleAnnotations annotations (only actionable)))%nat = length annotations.
Proof.
  assert (Hel : forall f, a ∈ visibleAnnotations annotations f <->
                          a ∈ annotations /\ passes f a = true).
  { intros f. unfold visibleAnnotations.
    rewrite filteredAnnotations_passes, list_elem_of_In, List.filter_In.
    rewrite <- list_elem_of_In. by rewrite (sortedAnnotations_perm annotations). }
  split; [rewrite Hel; simpl; tauto | ].
  split; [ | split].
  - rewrite !Hel. simpl. destruct (annotationType a);
      rewrite ?bool_decide_eq_true_2, ?bool_decide_eq_false_2 by done; tauto.
  - rewrite !Hel. simpl. intros [[_ H1] [_ H2]].
    apply bool_decide_eq_true in H1, H2. congruence.
  - unfold visibleAnnotations. rewrite !filteredAnnotations_passes.
    rewrite (List.filter_ext (passes (only actionable))
               (fun a => negb (passes (only general) a)) passes_one_type).
    rewrite filter_split_length. apply Permutation_length, sortedAnnotations_perm.
Qed.

(** X22.  A drag has no dead zone and no grab offset: after a press that hits
    the marker [a], the first move event, however close to the press, puts
    every annotation with the id of [a] at the rounded cursor position, even
    when the press was up to 14 pixels from the marker's point. *)
Theorem X22_first_move_snaps_the_marker_to_the_cursor
    (st : App) (p pos : Point) (a : Annotation) :
  getAnnotationAtPos (canvasAnnotations st) p = Some a ->
  let st' := handleMouseMove pos (handleMouseDown 0 p st) in
  annotations st' = map (movedTo (id a) pos) (annotations st) /\
  (forall b, b ∈ annotations st' -> id b = id a ->
     point b = {| x := Math_round (x pos); y := Math_round (y pos) |}) /\
  draggingAnnotationId st' = Some (id a).
Proof.
  intros H st'. unfold st'. rewrite (handleMouseDown_hit _ _ _ H).
  split; [reflexivity | ]. split; [ | reflexivity].
  intros b Hb Eb. simpl in Hb. apply list_elem_of_fmap in Hb as (c & -> & Hc).
  case_bool_decide as Ec; [done | ]. simpl in Eb. congruence.
Qed.

Lemma X22_first_move_snaps_the_marker_to_the_cursor_witness :
  map point (annotations
    (handleMouseMove (mkPoint 110 108) (handleMouseDown 0 (mkPoint 110 108) oneMarker)))
  = [mkPoint 110 108].
Proof.
  assert (H : getAnnotationAtPos (canvasAnnotations oneMarker) (mkPoint 110 108) = Some marker7)
    by (vm_compute; reflexivity).
  destruct (X22_first_move_snaps_the_marker_to_the_cursor oneMarker (mkPoint 110 108)
              (mkPoint 110 108) marker7 H) as (E & _).
  rewrite E. vm_compute. reflexivity.
Defined.
